(** * Protected short links in front of an upstream media resource

    A shallow embedding of the link-resolution and proxying engine of
    [main.ts] (the revision with both the /download and the /stream route):
    slug normalisation, the content-type resolver, the access guard, link
    registration and the two relay handlers, together with the router.

    Strings.  A JavaScript string is a sequence of UTF-16 code units.  The
    embedding uses [string], whose characters are the code units 0..255
    (Basic Latin and Latin-1 Supplement); on that range [toLowerCase],
    [trim], the regular expression class [\s] and [encodeURIComponent] are
    written out below exactly as ECMAScript defines them.

    Effects.  Every [await] of a handler (a read, write or delete of the
    Deno KV store, an upstream [fetch]) and every console line is a node of
    a program tree [Prog]; [run] executes one handler on its own and
    [run_schedule] interleaves several handlers at their [await]s. *)

From Stdlib Require Import NArith Ascii String Bool List Lia.
From stdpp Require Import base option gmap strings.

Local Open Scope string_scope.
Local Open Scope N_scope.

(* stdpp freezes [String.append] under [simpl]; the proofs below compute
   with string literals. *)
#[local] Arguments String.append !_ _ / : simpl nomatch.

(** ** Code units and character classes *)

Definition code (c : ascii) : N := N_of_ascii c.

Definition in_range (lo hi : N) (c : ascii) : bool :=
  (lo <=? code c) && (code c <=? hi).

(** [a-z] *)
Definition is_lower_az (c : ascii) : bool := in_range 97 122 c.
(** [A-Z] *)
Definition is_upper_az (c : ascii) : bool := in_range 65 90 c.
(** [0-9] *)
Definition is_digit (c : ascii) : bool := in_range 48 57 c.
(** [-] *)
Definition is_hyphen (c : ascii) : bool := code c =? 45.

(** The class [\s] restricted to code units below 256: TAB, LF, VT, FF, CR,
    SPACE and NO-BREAK SPACE.  [String.prototype.trim] strips the same set. *)
Definition is_space (c : ascii) : bool :=
  in_range 9 13 c || (code c =? 32) || (code c =? 160).

(** [a-z0-9] *)
Definition is_slug_alnum (c : ascii) : bool := is_lower_az c || is_digit c.

(** The class [a-z0-9\s-] of the first replacement of the slug pipeline,
    and its complement [^a-z0-9\s-]. *)
Definition in_slug_class (c : ascii) : bool :=
  is_slug_alnum c || is_space c || is_hyphen c.
Definition outside_slug_class (c : ascii) : bool := negb (in_slug_class c).

(** The class [a-zA-Z0-9.\-_ ] of the download handler's fallback filename,
    and its complement. *)
Definition in_fallback_class (c : ascii) : bool :=
  is_lower_az c || is_upper_az c || is_digit c
  || (code c =? 46) || (code c =? 45) || (code c =? 95) || (code c =? 32).
Definition outside_fallback_class (c : ascii) : bool := negb (in_fallback_class c).

(** ** String primitives of the JavaScript runtime *)

(** [String.prototype.toLowerCase] on one code unit: [A-Z] and the Latin-1
    capitals U+00C0..U+00DE (except the multiplication sign U+00D7) move up
    by 32; every other code unit below 256 is its own lower case.  Strings
    here hold code units below 256 only.  A JavaScript string may also hold
    code units from U+0100 on, where lower-casing can produce ASCII (U+212A
    gives [k]) or change the length (U+0130 gives [i] and U+0307); such
    labels are outside this model, and the statements below about slugs are
    statements about labels below U+0100. *)
Definition lower_char (c : ascii) : ascii :=
  if is_upper_az c || ((in_range 192 222 c) && negb (code c =? 215))
  then ascii_of_N (code c + 32)
  else c.

Fixpoint map_chars (f : ascii -> ascii) (s : string) : string :=
  match s with
  | EmptyString => EmptyString
  | String c s' => String (f c) (map_chars f s')
  end.

Definition toLowerCase (s : string) : string := map_chars lower_char s.

(** Remove the longest prefix of characters satisfying [p]. *)
Fixpoint drop_while (p : ascii -> bool) (s : string) : string :=
  match s with
  | EmptyString => EmptyString
  | String c s' => if p c then drop_while p s' else s
  end.

Definition is_empty (s : string) : bool :=
  match s with EmptyString => true | _ => false end.

(** Remove the longest suffix of characters satisfying [p]. *)
Fixpoint strip_end (p : ascii -> bool) (s : string) : string :=
  match s with
  | EmptyString => EmptyString
  | String c s' =>
      let r := strip_end p s' in
      if p c && is_empty r then EmptyString else String c r
  end.

(** [String.prototype.trim] *)
Definition trim (s : string) : string := strip_end is_space (drop_while is_space s).

(** [s.replace(/[class]/g, r)]: every single character of the class is
    replaced by [r]. *)
Fixpoint replace_each (p : ascii -> bool) (r : string) (s : string) : string :=
  match s with
  | EmptyString => EmptyString
  | String c s' =>
      if p c then r ++ replace_each p r s' else String c (replace_each p r s')
  end.

(** [s.replace(/[class]+/g, r)]: every maximal run of characters of the
    class is replaced by one [r].  [in_run] records that the previous
    character belonged to the run being replaced. *)
Fixpoint replace_runs_from (p : ascii -> bool) (r : string) (in_run : bool)
    (s : string) : string :=
  match s with
  | EmptyString => EmptyString
  | String c s' =>
      if p c then
        if in_run then replace_runs_from p r true s'
        else r ++ replace_runs_from p r true s'
      else String c (replace_runs_from p r false s')
  end.

Definition replace_runs (p : ascii -> bool) (r : string) (s : string) : string :=
  replace_runs_from p r false s.

(** [s.replace(/^-+|-+$/g, '')]: the leading run and the trailing run of
    hyphens are deleted (a string of hyphens only is matched whole by the
    first alternative). *)
Definition strip_hyphens (s : string) : string :=
  strip_end is_hyphen (drop_while is_hyphen s).

(** [s.split(';')[0]] *)
Fixpoint before_semicolon (s : string) : string :=
  match s with
  | EmptyString => EmptyString
  | String c s' => if code c =? 59 then EmptyString else String c (before_semicolon s')
  end.

(** ** Slug normalisation (first statement of [generateLinkHandler])

    [custom_id.trim().toLowerCase().replace(/[^a-z0-9\s-]/g, '-')
       .replace(/\s+/g, '-').replace(/-+/g, '-').replace(/^-+|-+$/g, '')] *)
Definition slugify (custom_id : string) : string :=
  strip_hyphens
    (replace_runs is_hyphen "-"
       (replace_runs is_space "-"
          (replace_each outside_slug_class "-"
             (toLowerCase (trim custom_id))))).

(** The normaliser as the specification words it: lower-case; every run of
    characters outside [a-z0-9\s-] becomes a hyphen; whitespace runs become
    single hyphens; repeated hyphens collapse; leading and trailing hyphens
    are stripped. *)
Definition spec_normalize (label : string) : string :=
  strip_hyphens
    (replace_runs is_hyphen "-"
       (replace_runs is_space "-"
          (replace_runs outside_slug_class "-"
             (toLowerCase label)))).

(** ** Content-type resolver *)

(** A value of type [string | null]; [!v] holds for [null] and for the empty
    string. *)
Definition truthy (v : option string) : bool :=
  match v with
  | Some s => negb (is_empty s)
  | None => false
  end.

Definition mapContentTypeToExtension (contentType : option string) : string :=
  match contentType with
  | None => ".mp4"
  | Some ct =>
      if is_empty ct then ".mp4"
      else
        let type := trim (before_semicolon ct) in
        if String.eqb type "video/mp4" then ".mp4"
        else if String.eqb type "video/x-matroska" then ".mkv"
        else if String.eqb type "video/webm" then ".webm"
        else if String.eqb type "video/quicktime" then ".mov"
        else if String.eqb type "application/octet-stream" then ".bin"
        else ".mp4"
  end.

(** ** [encodeURIComponent] on code units below 256 *)

(** The characters [encodeURIComponent] leaves alone:
    [A-Z a-z 0-9 - _ . ! ~ * ' ( )]. *)
Definition uri_unreserved (c : ascii) : bool :=
  is_lower_az c || is_upper_az c || is_digit c
  || (code c =? 45) || (code c =? 95) || (code c =? 46) || (code c =? 33)
  || (code c =? 126) || (code c =? 42) || (code c =? 39) || (code c =? 40)
  || (code c =? 41).

Definition hex_digit (n : N) : ascii :=
  if n <? 10 then ascii_of_N (48 + n) else ascii_of_N (55 + n).

(** [%XX] for one octet. *)
Definition percent_octet (b : N) : string :=
  String "%" (String (hex_digit (b / 16)) (String (hex_digit (b mod 16)) EmptyString)).

(** The UTF-8 octets of a code point below 256, each percent-encoded. *)
Definition percent_utf8 (c : ascii) : string :=
  if code c <? 128 then percent_octet (code c)
  else percent_octet (192 + code c / 64) ++ percent_octet (128 + code c mod 64).

Fixpoint encodeURIComponent (s : string) : string :=
  match s with
  | EmptyString => EmptyString
  | String c s' =>
      if uri_unreserved c then String c (encodeURIComponent s')
      else percent_utf8 c ++ encodeURIComponent s'
  end.

(** ** Data model *)

(** The value stored under the KV key [["links", slug]]. *)
Record LinkRecord := {
  link_url : string;
  link_key : string;
  link_filename : string
}.

(** The durable store, restricted to the [links] prefix: slug to record. *)
Abbreviation Store := (gmap string LinkRecord).

(** A [Headers] object: header names are case-insensitive and are kept in
    lower case. *)
Abbreviation Headers := (gmap string string).

Definition headers_get (h : Headers) (name : string) : option string :=
  h !! toLowerCase name.
Definition headers_set (h : Headers) (name value : string) : Headers :=
  <[toLowerCase name := value]> h.
Definition headers_delete (h : Headers) (name : string) : Headers :=
  delete (toLowerCase name) h.

Inductive Method := GET | POST | HEAD | OTHER.

Definition method_eqb (a b : Method) : bool :=
  match a, b with
  | GET, GET | POST, POST | HEAD, HEAD | OTHER, OTHER => true
  | _, _ => false
  end.

(** An inbound request: [new URL(req.url)] gives the origin, the pathname
    and [searchParams.get("key")]; [req.formData()] gives the form fields. *)
Record Request := {
  req_method : Method;
  req_origin : string;
  req_pathname : string;
  req_search_key : option string;
  req_headers : Headers;
  req_form : gmap string string
}.

(** The upstream side of [fetch]. *)
Record FetchRequest := {
  fetch_url : string;
  fetch_method : Method;
  fetch_headers : Headers
}.

Record UpstreamResponse := {
  up_status : N;
  up_headers : Headers;
  up_body : option string
}.

(** [response.ok] *)
Definition up_ok (r : UpstreamResponse) : bool :=
  (200 <=? up_status r) && (up_status r <=? 299).

(** [fetch] either rejects (network error; the string is [e.message]) or
    resolves to a response of any status. *)
Inductive FetchOutcome :=
| FetchRejected (message : string)
| FetchResolved (resp : UpstreamResponse).

(** The HTML pages, by their data; the markup is presentation. *)
Inductive Page :=
| PageHome
| PageInvalidInput
| PageSlugTaken (slug : string)
| PageGenerated (slug finalFilename key origin : string)
| PageAdminMisconfigured
| PageAdminLogin
| PageDashboard (rows : list (string * string)).

Inductive Body :=
| BodyText (text : string)
| BodyHtml (page : Page)
| BodyUpstream (stream : option string)
| BodyNone.

Record Response := {
  status : N;
  headers : Headers;
  body : Body
}.

Inductive ConsoleLine :=
| ConsoleLog (text : string)
| ConsoleError (text : string).

(** What a handler did to the outside world, in order. *)
Inductive Event :=
| EvKvGet (slug : string)
| EvKvSet (slug : string) (r : LinkRecord)
| EvKvDelete (slug : string)
| EvKvList
| EvFetch (rq : FetchRequest)
| EvConsole (line : ConsoleLine).

(** ** Handler programs *)

(** A handler is a tree: it returns, throws, or performs one effect and
    continues with the effect's answer.  The KV and fetch nodes are the
    [await]s of the source. *)
Inductive Prog (A : Type) : Type :=
| Return (a : A)
| Throw
| KvGet (slug : string) (k : option LinkRecord -> Prog A)
| KvSet (slug : string) (r : LinkRecord) (k : Prog A)
| KvDelete (slug : string) (k : Prog A)
| KvList (k : list (string * LinkRecord) -> Prog A)
| FetchCall (rq : FetchRequest) (k : FetchOutcome -> Prog A)
| Console (line : ConsoleLine) (k : Prog A).

Arguments Return {A} a.
Arguments Throw {A}.
Arguments KvGet {A} slug k.
Arguments KvSet {A} slug r k.
Arguments KvDelete {A} slug k.
Arguments KvList {A} k.
Arguments FetchCall {A} rq k.
Arguments Console {A} line k.

Fixpoint prog_bind {A B : Type} (f : A -> Prog B) (p : Prog A) : Prog B :=
  match p with
  | Return a => f a
  | Throw => Throw
  | KvGet slug k => KvGet slug (fun v => prog_bind f (k v))
  | KvSet slug r k => KvSet slug r (prog_bind f k)
  | KvDelete slug k => KvDelete slug (prog_bind f k)
  | KvList k => KvList (fun l => prog_bind f (k l))
  | FetchCall rq k => FetchCall rq (fun o => prog_bind f (k o))
  | Console line k => Console line (prog_bind f k)
  end.

#[global] Instance prog_mret : MRet Prog := fun A a => Return a.
#[global] Instance prog_mbind : MBind Prog := fun A B f p => prog_bind f p.

Inductive Outcome (A : Type) : Type :=
| Returned (a : A)
| Threw.

Arguments Returned {A} a.
Arguments Threw {A}.

Record Run (A : Type) := {
  outcome : Outcome A;
  store_after : Store;
  trace : list Event
}.

Arguments outcome {A} _.
Arguments store_after {A} _.
Arguments trace {A} _.

Definition logged {A : Type} (e : Event) (r : Run A) : Run A :=
  {| outcome := outcome r; store_after := store_after r; trace := e :: trace r |}.

(** One handler executed from start to end with no other handler in
    between, against the upstream [net] and the store [st]. *)
Fixpoint run {A : Type} (net : FetchRequest -> FetchOutcome) (p : Prog A)
    (st : Store) : Run A :=
  match p with
  | Return a => {| outcome := Returned a; store_after := st; trace := [] |}
  | Throw => {| outcome := Threw; store_after := st; trace := [] |}
  | KvGet slug k => logged (EvKvGet slug) (run net (k (st !! slug)) st)
  | KvSet slug r k => logged (EvKvSet slug r) (run net k (<[slug := r]> st))
  | KvDelete slug k => logged (EvKvDelete slug) (run net k (delete slug st))
  | KvList k => logged EvKvList (run net (k (map_to_list st)) st)
  | FetchCall rq k => logged (EvFetch rq) (run net (k (net rq)) st)
  | Console line k => logged (EvConsole line) (run net k st)
  end.

(** One effect of one handler: the unit of interleaving. *)
Definition step {A : Type} (net : FetchRequest -> FetchOutcome) (p : Prog A)
    (st : Store) : Prog A * Store :=
  match p with
  | Return a => (Return a, st)
  | Throw => (Throw, st)
  | KvGet slug k => (k (st !! slug), st)
  | KvSet slug r k => (k, <[slug := r]> st)
  | KvDelete slug k => (k, delete slug st)
  | KvList k => (k (map_to_list st), st)
  | FetchCall rq k => (k (net rq), st)
  | Console _ k => (k, st)
  end.

(** Handlers in flight, interleaved at their effects: [sched] names, step
    by step, the handler that moves next. *)
Fixpoint run_schedule {A : Type} (net : FetchRequest -> FetchOutcome)
    (sched : list nat) (pool : list (Prog A)) (st : Store)
    : list (Prog A) * Store :=
  match sched with
  | [] => (pool, st)
  | i :: sched' =>
      match pool !! i with
      | None => run_schedule net sched' pool st
      | Some p =>
          let '(p', st') := step net p st in
          run_schedule net sched' (<[i := p']> pool) st'
      end
  end.

(** ** Responses *)

Definition dquote : string := String (ascii_of_N 34) EmptyString.

Definition body_is_null (b : Body) : bool :=
  match b with
  | BodyNone | BodyUpstream None => true
  | _ => false
  end.

(** The null-body statuses of the Fetch standard. *)
Definition null_body_status (s : N) : bool :=
  (s =? 101) || (s =? 103) || (s =? 204) || (s =? 205) || (s =? 304).

(** [new Response(body, { status, headers })]: a [RangeError] outside
    200..599, a [TypeError] for a body on a null-body status. *)
Definition new_Response (b : Body) (s : N) (h : Headers) : Prog Response :=
  if (s <? 200) || (599 <? s) then Throw
  else if null_body_status s && negb (body_is_null b) then Throw
  else Return {| status := s; headers := h; body := b |}.

(** [new Response(text, { status })] *)
Definition text_response (text : string) (s : N) : Prog Response :=
  new_Response (BodyText text) s (headers_set ∅ "Content-Type" "text/plain;charset=UTF-8").

Definition serveHtmlResponse (page : Page) (s : N) : Prog Response :=
  new_Response (BodyHtml page) s (headers_set ∅ "Content-Type" "text/html").

(** *** The URL parser behind [Response.redirect]

    [Response.redirect(target, 303)] parses [target] and puts the
    serialised URL in the [Location] header.  Of the URL Standard's parser
    the model has what acts on the part of the target that comes from a
    caller: C0 controls and spaces at the two ends are dropped, tabs and
    newlines are dropped everywhere, the query (after the first [?]) and the
    fragment (after the first [#]) are percent-encoded with their sets.
    The part before the [?] is kept as it is: in the one use below it is
    [url.origin], already serialised, followed by [/admin]. *)

Definition is_c0_or_space (c : ascii) : bool := code c <=? 32.

Definition is_tab_or_newline (c : ascii) : bool :=
  (code c =? 9) || (code c =? 10) || (code c =? 13).

(** The special-query percent-encode set (http and https): C0 controls,
    space, the double quote, [#], the apostrophe, [<], [>] and everything
    above [~]. *)
Definition in_special_query_set (c : ascii) : bool :=
  (code c <=? 32) || (code c =? 34) || (code c =? 35) || (code c =? 39)
  || (code c =? 60) || (code c =? 62) || (126 <? code c).

(** The fragment percent-encode set: C0 controls, space, the double quote,
    [<], [>], the backtick and everything above [~]. *)
Definition in_fragment_set (c : ascii) : bool :=
  (code c <=? 32) || (code c =? 34) || (code c =? 60) || (code c =? 62)
  || (code c =? 96) || (126 <? code c).

Fixpoint percent_encode (set : ascii -> bool) (s : string) : string :=
  match s with
  | EmptyString => EmptyString
  | String c s' =>
      if set c then percent_utf8 c ++ percent_encode set s'
      else String c (percent_encode set s')
  end.

(** What precedes the first character satisfying [p]. *)
Fixpoint before_first (p : ascii -> bool) (s : string) : string :=
  match s with
  | EmptyString => EmptyString
  | String c s' => if p c then EmptyString else String c (before_first p s')
  end.

(** What follows the first character satisfying [p], if there is one. *)
Fixpoint after_first (p : ascii -> bool) (s : string) : option string :=
  match s with
  | EmptyString => None
  | String c s' => if p c then Some s' else after_first p s'
  end.

(** [new URL(target).href] *)
Definition url_href (target : string) : string :=
  let trimmed := strip_end is_c0_or_space (drop_while is_c0_or_space target) in
  let cleaned := replace_each is_tab_or_newline EmptyString trimmed in
  let main := before_first (fun c => code c =? 35) cleaned in
  let fragment := after_first (fun c => code c =? 35) cleaned in
  let head := before_first (fun c => code c =? 63) main in
  let query := after_first (fun c => code c =? 63) main in
  head
  ++ match query with
     | Some q => "?" ++ percent_encode in_special_query_set q
     | None => EmptyString
     end
  ++ match fragment with
     | Some f => "#" ++ percent_encode in_fragment_set f
     | None => EmptyString
     end.

(** [Response.redirect(target, 303)] *)
Definition redirect_response (target : string) : Prog Response :=
  Return {| status := 303; headers := headers_set ∅ "Location" (url_href target);
            body := BodyNone |}.

(** [`${v}`] for [v : string | null]. *)
Definition show_nullable (v : option string) : string :=
  match v with Some s => s | None => "null" end.

(** ** Access guard and handlers

    [ADMIN_PASSWORD] is [Deno.env.get("MASTER_PASSWORD")], read once when
    the module is loaded; [None] is an unset variable. *)
Section Handlers.

Variable ADMIN_PASSWORD : option string.

Definition checkAdminAuth (key : option string) : Prog bool :=
  if negb (truthy ADMIN_PASSWORD) then
    Console (ConsoleError "CRITICAL: MASTER_PASSWORD is not set in Environment Variables.")
      (Return false)
  else
    Return (bool_decide (key = ADMIN_PASSWORD)).

Definition streamVideoHandler (req : Request) (id key : string) : Prog Response :=
  KvGet id (fun record =>
    match record with
    | None => text_response "Link not found or expired" 404
    | Some value =>
        let originalUrl := link_url value in
        let storedKey := link_key value in
        if negb (String.eqb storedKey key) then
          text_response "Invalid security key" 403
        else
          let range := headers_get (req_headers req) "Range" in
          let fetchHeaders :=
            if truthy range then headers_set ∅ "Range" (default "" range) else ∅ in
          Console (ConsoleLog ("Streaming (Range: "
                               ++ (if truthy range then default "" range else "none")
                               ++ "): " ++ originalUrl))
            (FetchCall {| fetch_url := originalUrl; fetch_method := GET;
                          fetch_headers := fetchHeaders |}
               (fun fetched =>
                  match fetched with
                  | FetchRejected _ => Throw
                  | FetchResolved upstreamResponse =>
                      if negb (up_ok upstreamResponse) then
                        text_response "Failed to fetch upstream resource"
                          (up_status upstreamResponse)
                      else
                        let responseHeaders :=
                          headers_delete
                            (headers_set (up_headers upstreamResponse) "Accept-Ranges" "bytes")
                            "Content-Disposition" in
                        new_Response (BodyUpstream (up_body upstreamResponse))
                          (up_status upstreamResponse) responseHeaders
                  end))
    end).

Definition downloadVideoHandler (req : Request) (id key : string) : Prog Response :=
  KvGet id (fun record =>
    match record with
    | None => text_response "Link not found or expired" 404
    | Some value =>
        let originalUrl := link_url value in
        let storedKey := link_key value in
        let filename := link_filename value in
        if negb (String.eqb storedKey key) then
          text_response "Invalid security key" 403
        else
          Console (ConsoleLog ("Fetching for download: " ++ originalUrl))
            (FetchCall {| fetch_url := originalUrl; fetch_method := GET;
                          fetch_headers := ∅ |}
               (fun fetched =>
                  match fetched with
                  | FetchRejected _ => Throw
                  | FetchResolved upstreamResponse =>
                      if negb (up_ok upstreamResponse)
                         || negb (bool_decide (is_Some (up_body upstreamResponse))) then
                        text_response "Failed to fetch upstream resource"
                          (up_status upstreamResponse)
                      else
                        let fallbackFilename :=
                          replace_each outside_fallback_class "_" filename in
                        let encodedFilename := encodeURIComponent filename in
                        let h1 :=
                          headers_set ∅ "Content-Disposition"
                            ("attachment; filename=" ++ dquote ++ fallbackFilename
                             ++ dquote ++ "; filename*=UTF-8''" ++ encodedFilename) in
                        let h2 := headers_set h1 "Content-Type" "application/octet-stream" in
                        let contentLength :=
                          headers_get (up_headers upstreamResponse) "Content-Length" in
                        let responseHeaders :=
                          if truthy contentLength
                          then headers_set h2 "Content-Length" (default "" contentLength)
                          else h2 in
                        new_Response (BodyUpstream (up_body upstreamResponse)) 200
                          responseHeaders
                  end))
    end).

Definition generateLinkHandler (req : Request) : Prog Response :=
  let formData := req_form req in
  let url := formData !! "url" in
  let key := formData !! "key" in
  let filename_override := trim <$> (formData !! "filename") in
  match formData !! "custom_id" with
  | None => Throw
  | Some custom_id =>
      let slug := slugify custom_id in
      if negb (truthy url) || negb (truthy key) || is_empty slug then
        serveHtmlResponse PageInvalidInput 400
      else
        let url := default "" url in
        let key := default "" key in
        KvGet slug (fun existing =>
          match existing with
          | Some _ => serveHtmlResponse (PageSlugTaken slug) 409
          | None =>
              let persist (finalFilename : string) : Prog Response :=
                KvSet slug {| link_url := url; link_key := key;
                              link_filename := finalFilename |}
                  (serveHtmlResponse
                     (PageGenerated slug finalFilename key (req_origin req)) 200) in
              if truthy filename_override then
                persist (default "" filename_override)
              else
                Console (ConsoleLog ("Auto-detecting filename for: " ++ url))
                  (FetchCall {| fetch_url := url; fetch_method := HEAD;
                                fetch_headers := ∅ |}
                     (fun fetched =>
                        match fetched with
                        | FetchResolved response =>
                            let contentType :=
                              headers_get (up_headers response) "Content-Type" in
                            let extension := mapContentTypeToExtension contentType in
                            let finalFilename := slug ++ extension in
                            Console (ConsoleLog ("Detected Content-Type: "
                                                 ++ show_nullable contentType
                                                 ++ ", Assigned Filename: " ++ finalFilename))
                              (persist finalFilename)
                        | FetchRejected message =>
                            Console (ConsoleError ("HEAD request failed: " ++ message))
                              (persist (slug ++ ".mp4"))
                        end))
          end)
  end.

Definition homepageHandler : Prog Response := serveHtmlResponse PageHome 200.

Definition adminPageHandler (req : Request) : Prog Response :=
  if negb (truthy ADMIN_PASSWORD) then
    serveHtmlResponse PageAdminMisconfigured 500
  else
    let key := req_search_key req in
    authorised ← checkAdminAuth key;
    if negb authorised then serveHtmlResponse PageAdminLogin 200
    else
      KvList (fun links =>
        serveHtmlResponse
          (PageDashboard (map (fun entry => (link_filename (snd entry), fst entry)) links))
          200).

Definition deleteLinkHandler (req : Request) : Prog Response :=
  let key := req_search_key req in
  authorised ← checkAdminAuth key;
  if negb authorised then text_response "Unauthorized" 403
  else
    let id := req_form req !! "id" in
    let back := redirect_response (req_origin req ++ "/admin?key=" ++ show_nullable key) in
    if truthy id then
      KvDelete (default "" id)
        (Console (ConsoleLog ("Deleted link with Custom Name (ID): " ++ default "" id)) back)
    else back.

(** [new URLPattern({ pathname: prefix + ":id" }).exec(url)]: the pathname
    is the prefix followed by one non-empty segment without a slash; the
    result is [groups.id]. *)
Fixpoint has_slash (s : string) : bool :=
  match s with
  | EmptyString => false
  | String c s' => (code c =? 47) || has_slash s'
  end.

Fixpoint strip_prefix (prefix s : string) : option string :=
  match prefix, s with
  | EmptyString, _ => Some s
  | String a prefix', String b s' =>
      if Ascii.eqb a b then strip_prefix prefix' s' else None
  | String _ _, EmptyString => None
  end.

Definition pattern_exec (prefix pathname : string) : option string :=
  match strip_prefix prefix pathname with
  | Some id => if is_empty id || has_slash id then None else Some id
  | None => None
  end.

(** The callback given to [serve]. *)
Definition serve (req : Request) : Prog Response :=
  let downloadMatch := pattern_exec "/download/" (req_pathname req) in
  let streamMatch := pattern_exec "/stream/" (req_pathname req) in
  if String.eqb (req_pathname req) "/" && method_eqb (req_method req) GET then
    homepageHandler
  else if String.eqb (req_pathname req) "/generate" && method_eqb (req_method req) POST then
    generateLinkHandler req
  else if String.eqb (req_pathname req) "/admin" && method_eqb (req_method req) GET then
    adminPageHandler req
  else if String.eqb (req_pathname req) "/delete" && method_eqb (req_method req) POST then
    deleteLinkHandler req
  else
    match streamMatch, method_eqb (req_method req) GET with
    | Some id, true =>
        let key := req_search_key req in
        if negb (truthy key) then text_response "Missing 'key' parameter" 401
        else streamVideoHandler req id (default "" key)
    | _, _ =>
        match downloadMatch, method_eqb (req_method req) GET with
        | Some id, true =>
            let key := req_search_key req in
            if negb (truthy key) then text_response "Missing 'key' parameter" 401
            else downloadVideoHandler req id (default "" key)
        | _, _ => text_response "404 Not Found" 404
        end
    end.

End Handlers.

(** ** URL-safety of a slug (data model, [slug] field) *)

Fixpoint all_chars (p : ascii -> bool) (s : string) : bool :=
  match s with
  | EmptyString => true
  | String c s' => p c && all_chars p s'
  end.

Definition starts_with_hyphen (s : string) : bool :=
  match s with
  | String c _ => is_hyphen c
  | EmptyString => false
  end.

Fixpoint ends_with_hyphen (s : string) : bool :=
  match s with
  | EmptyString => false
  | String c EmptyString => is_hyphen c
  | String _ s' => ends_with_hyphen s'
  end.

Fixpoint has_double_hyphen (s : string) : bool :=
  match s with
  | EmptyString => false
  | String c s' => (is_hyphen c && starts_with_hyphen s') || has_double_hyphen s'
  end.

(** Non-empty; lowercase ASCII letters, digits and hyphens only; no leading,
    trailing or consecutive hyphens. *)
Definition url_safe (s : string) : bool :=
  negb (is_empty s)
  && all_chars (fun c => is_slug_alnum c || is_hyphen c) s
  && negb (starts_with_hyphen s)
  && negb (ends_with_hyphen s)
  && negb (has_double_hyphen s).

(** Every slug the program may still write is URL-safe. *)
Fixpoint writes_safe {A : Type} (p : Prog A) : Prop :=
  match p with
  | Return _ | Throw => True
  | KvGet _ k => forall v, writes_safe (k v)
  | KvSet slug _ k => url_safe slug = true /\ writes_safe k
  | KvDelete _ k => writes_safe k
  | KvList k => forall l, writes_safe (k l)
  | FetchCall _ k => forall o, writes_safe (k o)
  | Console _ k => writes_safe k
  end.

Definition store_safe (st : Store) : Prop :=
  forall slug, is_Some (st !! slug) -> url_safe slug = true.

(** ** Fixed responses and sample data used in the statements *)

Definition misconfiguration_line : Event :=
  EvConsole (ConsoleError "CRITICAL: MASTER_PASSWORD is not set in Environment Variables.").

Definition not_found_response : Response :=
  {| status := 404; headers := {[ "content-type" := "text/plain;charset=UTF-8" ]};
     body := BodyText "Link not found or expired" |}.

Definition forbidden_response : Response :=
  {| status := 403; headers := {[ "content-type" := "text/plain;charset=UTF-8" ]};
     body := BodyText "Invalid security key" |}.

Definition missing_key_response : Response :=
  {| status := 401; headers := {[ "content-type" := "text/plain;charset=UTF-8" ]};
     body := BodyText "Missing 'key' parameter" |}.

Definition demo_record : LinkRecord :=
  {| link_url := "https://ex.com/a.bin"; link_key := "s3cret"; link_filename := "clip.mp4" |}.

Definition demo_store : Store := {[ "clip-one" := demo_record ]}.

Definition demo_get (pathname : string) (key : option string) : Request :=
  {| req_method := GET; req_origin := "https://links.example"; req_pathname := pathname;
     req_search_key := key; req_headers := ∅; req_form := ∅ |}.


(** The character the fallback filename carries in place of [c]. *)
Definition fallback_char (c : ascii) : ascii :=
  if in_fallback_class c then c else "_"%char.

(** The [Content-Disposition] value of the download handler for a stored
    filename. *)
Definition attachment_disposition (filename : string) : string :=
  "attachment; filename=" ++ dquote ++ map_chars fallback_char filename ++ dquote
  ++ "; filename*=UTF-8''" ++ encodeURIComponent filename.

(** An upstream that answers every request with the same response. *)
Definition always (up : UpstreamResponse) : FetchRequest -> FetchOutcome :=
  fun _ => FetchResolved up.

Definition demo_full : UpstreamResponse :=
  {| up_status := 200;
     up_headers := {[ "content-length" := "5"; "content-type" := "video/webm" ]};
     up_body := Some "hello" |}.

Definition demo_partial : UpstreamResponse :=
  {| up_status := 206;
     up_headers := {[ "content-range" := "bytes 0-99/5000";
                      "content-disposition" := "attachment";
                      "content-type" := "video/mp4" ]};
     up_body := Some "first hundred bytes" |}.

Definition demo_range_get : Request :=
  {| req_method := GET; req_origin := "https://links.example";
     req_pathname := "/stream/clip-one"; req_search_key := Some "s3cret";
     req_headers := {[ "range" := "bytes=0-99" ]}; req_form := ∅ |}.

Definition demo_post (form : gmap string string) : Request :=
  {| req_method := POST; req_origin := "https://links.example";
     req_pathname := "/generate"; req_search_key := None; req_headers := ∅;
     req_form := form |}.

(** Two registrations whose labels differ and normalise to the same slug. *)
Definition first_registration : Request :=
  demo_post {[ "url" := "https://ex.com/a.bin"; "key" := "s3cret";
               "custom_id" := "Clip One"; "filename" := "clip.mp4" ]}.

Definition second_registration : Request :=
  demo_post {[ "url" := "https://ex.com/b.bin"; "key" := "other";
               "custom_id" := "clip-one!"; "filename" := "b.mp4" ]}.

Definition second_record : LinkRecord :=
  {| link_url := "https://ex.com/b.bin"; link_key := "other"; link_filename := "b.mp4" |}.

(** A registration for a taken label that leaves the URL field out. *)
Definition registration_without_url : Request :=
  demo_post {[ "key" := "s3cret"; "custom_id" := "Clip One" ]}.

(** A registration that leaves the filename blank, and an upstream that
    answers the HEAD probe with an error status and a video content type. *)
Definition registration_without_filename : Request :=
  demo_post {[ "url" := "https://ex.com/a"; "key" := "s3cret"; "custom_id" := "Clip" ]}.

Definition demo_probe_error : UpstreamResponse :=
  {| up_status := 404; up_headers := {[ "content-type" := "video/webm" ]};
     up_body := None |}.

Definition slug_taken_response (slug : string) : Response :=
  {| status := 409; headers := {[ "content-type" := "text/html" ]};
     body := BodyHtml (PageSlugTaken slug) |}.

Definition invalid_input_response : Response :=
  {| status := 400; headers := {[ "content-type" := "text/html" ]};
     body := BodyHtml PageInvalidInput |}.

Definition generated_response (slug finalFilename key origin : string) : Response :=
  {| status := 200; headers := {[ "content-type" := "text/html" ]};
     body := BodyHtml (PageGenerated slug finalFilename key origin) |}.

(** The fixed table of the content-type resolver, as the specification
    lists it. *)
Definition extension_table : list (string * string) :=
  [ ("video/mp4", ".mp4"); ("video/x-matroska", ".mkv"); ("video/webm", ".webm");
    ("video/quicktime", ".mov"); ("application/octet-stream", ".bin") ].

Definition starts_with (p : ascii -> bool) (s : string) : bool :=
  match s with
  | String c _ => p c
  | EmptyString => false
  end.

(** ** The slug in one pass *)

(** Everything that is not [a-z0-9] separates the words of a slug. *)
Definition is_sep (c : ascii) : bool := negb (is_slug_alnum c).

(** Every run of separators becomes one hyphen, except that the runs at the
    two ends disappear. *)
Definition canonical_slug (s : string) : string :=
  strip_end is_hyphen (replace_runs_from is_sep "-" true s).

(** Letters, digits and hyphens only, and no hyphen directly after a hyphen
    ([after_hyphen] says that the character before the string is one, or
    that the string starts the slug). *)
Fixpoint hyphens_single (after_hyphen : bool) (s : string) : bool :=
  match s with
  | EmptyString => true
  | String c s' =>
      if is_hyphen c then negb after_hyphen && hyphens_single true s'
      else is_slug_alnum c && hyphens_single false s'
  end.

(** ** The earlier revision kept in [src/main.ts]

    The "Modern Dark UI" revision has no /stream route, no probe and no
    resolver; its slug pipeline deletes the characters outside the class
    and stops after the whitespace pass, and its download handler quotes the
    stored filename as it is. *)
Module EarlierRevision.

(** [custom_id.trim().toLowerCase().replace(/[^a-z0-9\s-]/g, '')
      .replace(/\s+/g, '-')] *)
Definition slug_of (custom_id : string) : string :=
  replace_runs is_space "-"
    (replace_each outside_slug_class EmptyString (toLowerCase (trim custom_id))).

(** [`attachment; filename="${filename}"`] *)
Definition disposition_of (filename : string) : string :=
  "attachment; filename=" ++ dquote ++ filename ++ dquote.

(** [generateLinkHandler] of that revision: the filename is a required
    field, stored as submitted; there is no probe. *)
Definition generateLinkHandler (req : Request) : Prog Response :=
  let formData := req_form req in
  let url := formData !! "url" in
  let key := formData !! "key" in
  let filename := formData !! "filename" in
  match formData !! "custom_id" with
  | None => Throw
  | Some custom_id =>
      let slug := slug_of custom_id in
      if negb (truthy url) || negb (truthy key) || negb (truthy filename) || is_empty slug
      then serveHtmlResponse PageInvalidInput 400
      else
        let url := default "" url in
        let key := default "" key in
        let filename := default "" filename in
        KvGet slug (fun existing =>
          match existing with
          | Some _ => serveHtmlResponse (PageSlugTaken slug) 409
          | None =>
              KvSet slug {| link_url := url; link_key := key; link_filename := filename |}
                (serveHtmlResponse (PageGenerated slug filename key (req_origin req)) 200)
          end)
  end.

End EarlierRevision.


(** ** Programs that only read *)

(** The program has no write and no delete left in it. *)
Fixpoint read_only {A : Type} (p : Prog A) : Prop :=
  match p with
  | Return _ | Throw => True
  | KvGet _ k => forall v, read_only (k v)
  | KvSet _ _ _ => False
  | KvDelete _ _ => False
  | KvList k => forall l, read_only (k l)
  | FetchCall _ k => forall o, read_only (k o)
  | Console _ k => read_only k
  end.

(** Sample administrative requests. *)
Definition demo_delete (key : option string) (form : gmap string string) : Request :=
  {| req_method := POST; req_origin := "https://links.example";
     req_pathname := "/delete"; req_search_key := key; req_headers := ∅;
     req_form := form |}.

Definition demo_two_links : Store :=
  {[ "clip-one" := demo_record; "other" := second_record ]}.


Definition unauthorized_response : Response :=
  {| status := 403; headers := {[ "content-type" := "text/plain;charset=UTF-8" ]};
     body := BodyText "Unauthorized" |}.

Definition login_response : Response :=
  {| status := 200; headers := {[ "content-type" := "text/html" ]};
     body := BodyHtml PageAdminLogin |}.

Definition dashboard_response (rows : list (string * string)) : Response :=
  {| status := 200; headers := {[ "content-type" := "text/html" ]};
     body := BodyHtml (PageDashboard rows) |}.

Definition route_not_found_response : Response :=
  {| status := 404; headers := {[ "content-type" := "text/plain;charset=UTF-8" ]};
     body := BodyText "404 Not Found" |}.

(** The program has no upstream fetch left in it. *)
Fixpoint no_fetch {A : Type} (p : Prog A) : Prop :=
  match p with
  | Return _ | Throw => True
  | KvGet _ k => forall v, no_fetch (k v)
  | KvSet _ _ k => no_fetch k
  | KvDelete _ k => no_fetch k
  | KvList k => forall l, no_fetch (k l)
  | FetchCall _ _ => False
  | Console _ k => no_fetch k
  end.

Definition demo_request (method : Method) (pathname : string) : Request :=
  {| req_method := method; req_origin := "https://links.example";
     req_pathname := pathname; req_search_key := Some "s3cret"; req_headers := ∅;
     req_form := ∅ |}.

(** The extensions the registration handler can append to a slug. *)
Definition known_extensions : list string := [".mp4"; ".mkv"; ".webm"; ".mov"; ".bin"].

Definition first_record_trimmed : LinkRecord :=
  {| link_url := "https://ex.com/a.bin"; link_key := "s3cret"; link_filename := "clip.mp4" |}.

(** A registration whose filename field carries surrounding blanks. *)
Definition padded_registration : Request :=
  demo_post {[ "url" := "https://ex.com/a.bin"; "key" := "s3cret";
               "custom_id" := "Clip One"; "filename" := "  clip.mp4 " ]}.

Definition upstream_failed_response (s : N) : Response :=
  {| status := s; headers := {[ "content-type" := "text/plain;charset=UTF-8" ]};
     body := BodyText "Failed to fetch upstream resource" |}.

Definition demo_gone : UpstreamResponse :=
  {| up_status := 410; up_headers := {[ "content-type" := "text/html" ]};
     up_body := Some "<h1>Gone</h1>" |}.

Definition demo_no_content : UpstreamResponse :=
  {| up_status := 204; up_headers := ∅; up_body := None |}.

(** ** Reading a label *)

(** [A-Za-z0-9]: the characters of a label that reach its slug. *)
Definition is_ascii_alnum (c : ascii) : bool :=
  is_lower_az c || is_upper_az c || is_digit c.

Fixpoint filter_chars (p : ascii -> bool) (s : string) : string :=
  match s with
  | EmptyString => EmptyString
  | String c s' => if p c then String c (filter_chars p s') else filter_chars p s'
  end.

(** ** Reading a [filename*] value back

    What a client does with the value: percent-decoding, then UTF-8
    decoding, here for code points below 256 (the inverse of
    [encodeURIComponent] on the strings of this development). *)

Definition hex_value (c : ascii) : option N :=
  if is_digit c then Some (code c - 48)
  else if in_range 65 70 c then Some (code c - 55)
  else if in_range 97 102 c then Some (code c - 87)
  else None.

Fixpoint percent_decode (s : string) : option (list N) :=
  match s with
  | EmptyString => Some []
  | String c rest =>
      if code c =? 37 then
        match rest with
        | String h (String l rest') =>
            match hex_value h, hex_value l with
            | Some a, Some b => option_map (cons (16 * a + b)) (percent_decode rest')
            | _, _ => None
            end
        | _ => None
        end
      else option_map (cons (code c)) (percent_decode rest)
  end.

Fixpoint utf8_decode (octets : list N) : option string :=
  match octets with
  | [] => Some EmptyString
  | b :: octets' =>
      if b <? 128 then option_map (String (ascii_of_N b)) (utf8_decode octets')
      else if (b =? 194) || (b =? 195) then
        match octets' with
        | b2 :: octets'' =>
            if (128 <=? b2) && (b2 <? 192)
            then option_map (String (ascii_of_N ((b - 192) * 64 + (b2 - 128))))
                   (utf8_decode octets'')
            else None
        | [] => None
        end
      else None
  end.

Definition decodeURIComponent (s : string) : option string :=
  match percent_decode s with
  | Some octets => utf8_decode octets
  | None => None
  end.

(** The UTF-8 octets of one code point below 256. *)
Definition utf8_char (c : ascii) : list N :=
  if code c <? 128 then [code c] else [192 + code c / 64; 128 + code c mod 64].

Fixpoint utf8_octets (s : string) : list N :=
  match s with
  | EmptyString => []
  | String c s' => utf8_char c ++ utf8_octets s'
  end.

(** Printable ASCII: what a header value may carry without escaping. *)
Definition is_printable_ascii (c : ascii) : bool := in_range 32 126 c.

(** A registration as the earlier revision's form sends it. *)
Definition earlier_registration : Request :=
  demo_post {[ "url" := "https://ex.com/a.bin"; "key" := "s3cret";
               "custom_id" := "My Movie! 2023"; "filename" := " clip.mp4" ]}.

Definition earlier_record : LinkRecord :=
  {| link_url := "https://ex.com/a.bin"; link_key := "s3cret";
     link_filename := " clip.mp4" |}.

(** A stored filename with a space, parentheses and a letter above U+007F
    ([e] with acute accent, U+00E9). *)
Definition demo_accented_name : string :=
  "My Movie (1) " ++ String (ascii_of_N 233) ".mp4".

Definition demo_accented_record : LinkRecord :=
  {| link_url := "https://ex.com/a.bin"; link_key := "s3cret";
     link_filename := demo_accented_name |}.

Definition demo_accented_store : Store := {[ "clip-one" := demo_accented_record ]}.


(** * Properties *)

(** ** Worked examples of the primitives *)

Example slugify_clip_one : slugify "  Clip   One " = "clip-one".
Proof. reflexivity. Qed.

Example slugify_latin1 : slugify (String (ascii_of_N 201) "t" ++ String (ascii_of_N 233) " 7") = "t-7".
Proof. reflexivity. Qed.

Example resolver_with_parameters :
  mapContentTypeToExtension (Some "video/webm; codecs=vp9") = ".webm".
Proof. reflexivity. Qed.

Example encodeURIComponent_space_and_e_acute :
  encodeURIComponent ("a b" ++ String (ascii_of_N 233) ".mp4") = "a%20b%C3%A9.mp4".
Proof. reflexivity. Qed.

Example pattern_exec_download : pattern_exec "/download/" "/download/clip-one" = Some "clip-one".
Proof. reflexivity. Qed.

Example pattern_exec_nested : pattern_exec "/download/" "/download/a/b" = None.
Proof. reflexivity. Qed.

(** ** Routing *)

Lemma strip_prefix_Some (prefix s rest : string) :
  strip_prefix prefix s = Some rest -> s = prefix ++ rest.
Proof.
  revert s. induction prefix as [|a prefix IH]; intros s H; simpl in *.
  - now injection H as ->.
  - destruct s as [|b s]; [discriminate|].
    destruct (Ascii.eqb a b) eqn:E; [|discriminate].
    apply Ascii.eqb_eq in E. subst b. f_equal. auto.
Qed.

Lemma pattern_exec_Some (prefix pathname id : string) :
  pattern_exec prefix pathname = Some id -> pathname = prefix ++ id.
Proof.
  unfold pattern_exec. destruct (strip_prefix prefix pathname) as [r|] eqn:E; [|discriminate].
  destruct (is_empty r || has_slash r); [discriminate|].
  intros [= <-]. now apply strip_prefix_Some.
Qed.

(** A GET on [/stream/:id] reaches the stream branch of the router. *)
Lemma serve_stream_route (pw : option string) (req : Request) (id : string) :
  req_method req = GET ->
  pattern_exec "/stream/" (req_pathname req) = Some id ->
  serve pw req =
    if negb (truthy (req_search_key req)) then text_response "Missing 'key' parameter" 401
    else streamVideoHandler req id (default "" (req_search_key req)).
Proof.
  intros Hm Hp. unfold serve. rewrite Hp, Hm.
  apply pattern_exec_Some in Hp. rewrite Hp. reflexivity.
Qed.

(** A GET on [/download/:id] reaches the download branch of the router. *)
Lemma serve_download_route (pw : option string) (req : Request) (id : string) :
  req_method req = GET ->
  pattern_exec "/download/" (req_pathname req) = Some id ->
  serve pw req =
    if negb (truthy (req_search_key req)) then text_response "Missing 'key' parameter" 401
    else downloadVideoHandler req id (default "" (req_search_key req)).
Proof.
  intros Hm Hp. unfold serve. rewrite Hp, Hm.
  apply pattern_exec_Some in Hp. rewrite Hp. reflexivity.
Qed.

(** ** Access guard *)

(** C3.  With [MASTER_PASSWORD] unset, the administrative check returns
    [false] for every supplied key (absent keys included) and writes the
    critical line to the console; the admin page answers with the
    misconfiguration page (status 500) without listing the store, so the
    dashboard is never shown; a delete request is answered 403 and deletes
    nothing. *)
Theorem admin_fails_closed_when_unset
    (net : FetchRequest -> FetchOutcome) (st : Store) (key : option string)
    (req : Request) :
  run net (checkAdminAuth None key) st =
    {| outcome := Returned false; store_after := st;
       trace := [misconfiguration_line] |}
  /\ run net (adminPageHandler None req) st =
       {| outcome := Returned {| status := 500;
                                 headers := {[ "content-type" := "text/html" ]};
                                 body := BodyHtml PageAdminMisconfigured |};
          store_after := st; trace := [] |}
  /\ run net (deleteLinkHandler None req) st =
       {| outcome := Returned {| status := 403;
                                 headers := {[ "content-type" := "text/plain;charset=UTF-8" ]};
                                 body := BodyText "Unauthorized" |};
          store_after := st; trace := [misconfiguration_line] |}.
Proof. repeat split; reflexivity. Qed.

(** An empty [MASTER_PASSWORD] is as good as none: [!ADMIN_PASSWORD] holds. *)
Lemma admin_fails_closed_when_empty
    (net : FetchRequest -> FetchOutcome) (st : Store) (key : option string) :
  outcome (run net (checkAdminAuth (Some "") key) st) = Returned false.
Proof. reflexivity. Qed.

(** With a credential configured the check is plain equality. *)
Lemma checkAdminAuth_configured
    (net : FetchRequest -> FetchOutcome) (st : Store) (pw : string) (key : option string) :
  pw <> "" ->
  run net (checkAdminAuth (Some pw) key) st =
    {| outcome := Returned (bool_decide (key = Some pw)); store_after := st; trace := [] |}.
Proof. intros H. destruct pw; [contradiction|reflexivity]. Qed.

(** ** Relay: lookup before credential *)

Lemma eqb_neq_false (a b : string) : a <> b -> String.eqb a b = false.
Proof. intros H. now apply String.eqb_neq. Qed.

Lemma relay_absent_slug
    (net : FetchRequest -> FetchOutcome) (st : Store) (req : Request) (id key : string) :
  st !! id = None ->
  run net (streamVideoHandler req id key) st =
    {| outcome := Returned not_found_response; store_after := st; trace := [EvKvGet id] |}
  /\ run net (downloadVideoHandler req id key) st =
    {| outcome := Returned not_found_response; store_after := st; trace := [EvKvGet id] |}.
Proof.
  intros H. unfold streamVideoHandler, downloadVideoHandler. simpl. rewrite H.
  split; reflexivity.
Qed.

Lemma relay_wrong_key
    (net : FetchRequest -> FetchOutcome) (st : Store) (req : Request) (id key : string)
    (r : LinkRecord) :
  st !! id = Some r -> link_key r <> key ->
  run net (streamVideoHandler req id key) st =
    {| outcome := Returned forbidden_response; store_after := st; trace := [EvKvGet id] |}
  /\ run net (downloadVideoHandler req id key) st =
    {| outcome := Returned forbidden_response; store_after := st; trace := [EvKvGet id] |}.
Proof.
  intros H Hk. unfold streamVideoHandler, downloadVideoHandler. simpl. rewrite H.
  rewrite (eqb_neq_false _ _ Hk). split; reflexivity.
Qed.

(** C2.  Both relay handlers look the slug up first: an absent slug is
    answered 404 whatever the key, a present slug with a key different from
    the stored one is answered 403; in both cases only the lookup happened
    (no upstream fetch) and the store is unchanged. *)
Theorem relay_not_found_before_forbidden
    (net : FetchRequest -> FetchOutcome) (st : Store) (req : Request)
    (id key : string) :
  (st !! id = None ->
     run net (streamVideoHandler req id key) st =
       {| outcome := Returned not_found_response; store_after := st;
          trace := [EvKvGet id] |}
     /\ run net (downloadVideoHandler req id key) st =
       {| outcome := Returned not_found_response; store_after := st;
          trace := [EvKvGet id] |})
  /\ (forall r : LinkRecord,
        st !! id = Some r -> link_key r <> key ->
        run net (streamVideoHandler req id key) st =
          {| outcome := Returned forbidden_response; store_after := st;
             trace := [EvKvGet id] |}
        /\ run net (downloadVideoHandler req id key) st =
          {| outcome := Returned forbidden_response; store_after := st;
             trace := [EvKvGet id] |}).
Proof.
  split.
  - apply relay_absent_slug.
  - intros r. apply relay_wrong_key.
Qed.

Lemma relay_not_found_before_forbidden_witness :
  run (fun _ => FetchRejected "unreachable")
      (downloadVideoHandler (demo_get "/download/nope" (Some "s3cret")) "nope" "s3cret")
      demo_store
  = {| outcome := Returned not_found_response; store_after := demo_store;
       trace := [EvKvGet "nope"] |}
  /\ run (fun _ => FetchRejected "unreachable")
      (streamVideoHandler (demo_get "/stream/clip-one" (Some "WRONG")) "clip-one" "WRONG")
      demo_store
  = {| outcome := Returned forbidden_response; store_after := demo_store;
       trace := [EvKvGet "clip-one"] |}.
Proof.
  split.
  - apply (relay_not_found_before_forbidden (fun _ => FetchRejected "unreachable") demo_store
             (demo_get "/download/nope" (Some "s3cret")) "nope" "s3cret").
    reflexivity.
  - apply (proj2 (relay_not_found_before_forbidden (fun _ => FetchRejected "unreachable")
             demo_store (demo_get "/stream/clip-one" (Some "WRONG")) "clip-one" "WRONG")
             demo_record).
    + reflexivity.
    + discriminate.
Defined.

(** The same distinction seen through the router, for a non-empty key. *)
Lemma serve_relay_status_codes
    (pw : option string) (net : FetchRequest -> FetchOutcome) (st : Store)
    (req : Request) (id key : string) :
  req_method req = GET ->
  pattern_exec "/download/" (req_pathname req) = Some id
  \/ pattern_exec "/stream/" (req_pathname req) = Some id ->
  req_search_key req = Some key -> key <> "" ->
  (st !! id = None ->
     outcome (run net (serve pw req) st) = Returned not_found_response)
  /\ (forall r, st !! id = Some r -> link_key r <> key ->
        outcome (run net (serve pw req) st) = Returned forbidden_response).
Proof.
  intros Hm Hp Hk Hne.
  assert (Ht : negb (truthy (req_search_key req)) = false).
  { rewrite Hk. destruct key; [contradiction|reflexivity]. }
  pose proof (relay_absent_slug net st req id key) as Habs.
  pose proof (fun r => relay_wrong_key net st req id key r) as Hbad.
  destruct Hp as [Hp|Hp].
  - rewrite (serve_download_route pw req id Hm Hp), Ht, Hk. simpl default. split.
    + intros H. destruct (Habs H) as [_ ->]. reflexivity.
    + intros r H Hr. destruct (Hbad r H Hr) as [_ ->]. reflexivity.
  - rewrite (serve_stream_route pw req id Hm Hp), Ht, Hk. simpl default. split.
    + intros H. destruct (Habs H) as [-> _]. reflexivity.
    + intros r H Hr. destruct (Hbad r H Hr) as [-> _]. reflexivity.
Qed.

(** ** Router: key presence before everything else *)

(** C10.  A GET on [/download/:slug] or [/stream/:slug] whose [key] query
    parameter is absent or empty is answered 401 with an empty trace: no
    read of the store, no upstream fetch, no comparison with a stored key. *)
Theorem relay_requires_key_first
    (pw : option string) (net : FetchRequest -> FetchOutcome) (st : Store)
    (req : Request) (id : string) :
  req_method req = GET ->
  pattern_exec "/download/" (req_pathname req) = Some id
  \/ pattern_exec "/stream/" (req_pathname req) = Some id ->
  req_search_key req = None \/ req_search_key req = Some "" ->
  run net (serve pw req) st =
    {| outcome := Returned missing_key_response; store_after := st; trace := [] |}.
Proof.
  intros Hm Hp Hk.
  assert (Ht : negb (truthy (req_search_key req)) = true)
    by (destruct Hk as [-> | ->]; reflexivity).
  destruct Hp as [Hp|Hp].
  - rewrite (serve_download_route pw req id Hm Hp), Ht. reflexivity.
  - rewrite (serve_stream_route pw req id Hm Hp), Ht. reflexivity.
Qed.

Lemma relay_requires_key_first_witness :
  run (fun _ => FetchRejected "unreachable")
      (serve (Some "master") (demo_get "/stream/clip-one" (Some ""))) demo_store
  = {| outcome := Returned missing_key_response; store_after := demo_store; trace := [] |}.
Proof.
  apply (relay_requires_key_first (Some "master") (fun _ => FetchRejected "unreachable")
           demo_store (demo_get "/stream/clip-one" (Some "")) "clip-one").
  - reflexivity.
  - right. reflexivity.
  - right. reflexivity.
Defined.

(** ** Download mode *)

Lemma replace_each_fallback (s : string) :
  replace_each outside_fallback_class "_" s = map_chars fallback_char s.
Proof.
  induction s as [|c s IH]; simpl; [reflexivity|].
  rewrite IH. unfold fallback_char, outside_fallback_class at 1.
  now destruct (in_fallback_class c).
Qed.

Lemma fallback_char_in_class (c : ascii) : in_fallback_class (fallback_char c) = true.
Proof.
  unfold fallback_char. destruct (in_fallback_class c) eqn:E; [exact E|reflexivity].
Qed.

Lemma fallback_all_in_class (s : string) :
  all_chars in_fallback_class (map_chars fallback_char s) = true.
Proof.
  induction s as [|c s IH]; simpl; [reflexivity|].
  now rewrite fallback_char_in_class, IH.
Qed.

Lemma map_chars_length (f : ascii -> ascii) (s : string) :
  String.length (map_chars f s) = String.length s.
Proof. induction s as [|c s IH]; simpl; [reflexivity|now rewrite IH]. Qed.

Lemma all_chars_app (p : ascii -> bool) (a b : string) :
  all_chars p (a ++ b) = all_chars p a && all_chars p b.
Proof.
  induction a as [|c a IH]; simpl; [reflexivity|].
  rewrite IH. now rewrite andb_assoc.
Qed.

(** Every character of an encoded component is unreserved or a percent
    sign: the value is plain ASCII whatever the filename. *)
Lemma encodeURIComponent_ascii (s : string) :
  all_chars (fun c => uri_unreserved c || (code c =? 37)) (encodeURIComponent s) = true.
Proof.
  induction s as [|c s IH]; simpl; [reflexivity|].
  destruct (uri_unreserved c) eqn:E.
  - simpl. now rewrite E, IH.
  - rewrite all_chars_app, IH, andb_true_r.
    destruct c as [[] [] [] [] [] [] [] []]; reflexivity.
Qed.

Lemma up_ok_status_in_range (up : UpstreamResponse) :
  up_ok up = true -> (up_status up <? 200) || (599 <? up_status up) = false.
Proof.
  unfold up_ok. intros H. apply andb_true_iff in H as [H1 H2].
  apply N.leb_le in H1. apply N.leb_le in H2.
  apply orb_false_iff. split; apply N.ltb_ge; lia.
Qed.

(** *** Reading the encoded name back *)

Lemma hex_value_hex_digit (n : N) : n < 16 -> hex_value (hex_digit n) = Some n.
Proof.
  intros H. rewrite <- (N2Nat.id n).
  assert (Hk : (N.to_nat n < 16)%nat) by lia.
  revert Hk. generalize (N.to_nat n) as k. intros k Hk.
  do 16 (destruct k as [|k]; [vm_compute; reflexivity|]). lia.
Qed.

Lemma percent_decode_hex (hi lo : N) (t : string) :
  hi < 16 -> lo < 16 ->
  percent_decode (String "%" (String (hex_digit hi) (String (hex_digit lo) t)))
  = option_map (cons (16 * hi + lo)) (percent_decode t).
Proof.
  intros Hhi Hlo. cbn [percent_decode].
  change (code "%" =? 37) with true. cbv iota.
  now rewrite (hex_value_hex_digit hi Hhi), (hex_value_hex_digit lo Hlo).
Qed.

Lemma percent_decode_octet (b : N) (t : string) :
  b < 256 -> percent_decode (percent_octet b ++ t) = option_map (cons b) (percent_decode t).
Proof.
  intros Hb. unfold percent_octet.
  change (percent_decode (String "%" (String (hex_digit (b / 16))
                                        (String (hex_digit (b mod 16)) t)))
          = option_map (cons b) (percent_decode t)).
  assert (H16 : 16 <> 0) by discriminate.
  pose proof (N.div_mod b 16 H16) as Hdm.
  pose proof (N.mod_lt b 16 H16) as Hm.
  revert Hdm Hm. generalize (b / 16) as hi, (b mod 16) as lo. intros hi lo Hdm Hm.
  rewrite percent_decode_hex by lia. now rewrite <- Hdm.
Qed.

Lemma unreserved_is_plain (c : ascii) :
  uri_unreserved c = true -> (code c =? 37) = false /\ utf8_char c = [code c].
Proof.
  destruct c as [[] [] [] [] [] [] [] []]; vm_compute; intros H;
    first [split; reflexivity | discriminate H].
Qed.

Lemma code_below_256 (c : ascii) : code c < 256.
Proof. destruct c as [[] [] [] [] [] [] [] []]; vm_compute; reflexivity. Qed.

Lemma append_assoc (a b c : string) : (a ++ b) ++ c = a ++ (b ++ c).
Proof. induction a as [|x a IH]; simpl; [reflexivity|now rewrite IH]. Qed.

Lemma percent_decode_char (c : ascii) (t : string) :
  percent_decode ((if uri_unreserved c then String c "" else percent_utf8 c) ++ t)
  = option_map (app (utf8_char c)) (percent_decode t).
Proof.
  destruct (uri_unreserved c) eqn:E.
  - destruct (unreserved_is_plain c E) as [H37 ->].
    change (String c "" ++ t) with (String c t). cbn [percent_decode]. rewrite H37.
    now destruct (percent_decode t).
  - pose proof (code_below_256 c) as Hc. unfold percent_utf8, utf8_char.
    destruct (code c <? 128) eqn:Hlow.
    + rewrite percent_decode_octet by exact Hc. now destruct (percent_decode t).
    + apply N.ltb_ge in Hlow.
      assert (H64 : 64 <> 0) by discriminate.
      pose proof (N.div_mod (code c) 64 H64) as Hdm.
      pose proof (N.mod_lt (code c) 64 H64) as Hm.
      revert Hdm Hm. generalize (code c / 64) as q, (code c mod 64) as m.
      intros q m Hdm Hm.
      rewrite append_assoc, !percent_decode_octet by lia.
      now destruct (percent_decode t).
Qed.

Lemma ascii_of_code (c : ascii) : ascii_of_N (code c) = c.
Proof. apply ascii_N_embedding. Qed.

Lemma utf8_decode_two (q m : N) (octets : list N) :
  q = 2 \/ q = 3 -> m < 64 ->
  utf8_decode (192 + q :: 128 + m :: octets)
  = option_map (String (ascii_of_N (q * 64 + m))) (utf8_decode octets).
Proof.
  intros Hq Hm. cbn [utf8_decode].
  replace (192 + q <? 128) with false by (symmetry; apply N.ltb_ge; lia).
  replace ((192 + q =? 194) || (192 + q =? 195)) with true
    by (destruct Hq as [-> | ->]; reflexivity).
  replace ((128 <=? 128 + m) && (128 + m <? 192)) with true
    by (symmetry; apply andb_true_iff; split; [apply N.leb_le|apply N.ltb_lt]; lia).
  replace (192 + q - 192) with q by lia.
  replace (128 + m - 128) with m by lia.
  reflexivity.
Qed.

Lemma utf8_decode_char (c : ascii) (octets : list N) :
  utf8_decode (utf8_char c ++ octets) = option_map (String c) (utf8_decode octets).
Proof.
  pose proof (code_below_256 c) as Hc. unfold utf8_char.
  destruct (code c <? 128) eqn:Hlow.
  - cbn [app utf8_decode]. now rewrite Hlow, ascii_of_code.
  - apply N.ltb_ge in Hlow.
    assert (H64 : 64 <> 0) by discriminate.
    pose proof (N.div_mod (code c) 64 H64) as Hdm.
    pose proof (N.mod_lt (code c) 64 H64) as Hm.
    revert Hdm Hm. generalize (code c / 64) as q, (code c mod 64) as m.
    intros q m Hdm Hm. cbn [app].
    rewrite utf8_decode_two by lia.
    replace (q * 64 + m) with (code c) by lia.
    now rewrite ascii_of_code.
Qed.

Lemma percent_decode_encoded (s : string) :
  percent_decode (encodeURIComponent s) = Some (utf8_octets s).
Proof.
  induction s as [|c s IH]; [reflexivity|].
  cbn [encodeURIComponent utf8_octets].
  pose proof (percent_decode_char c (encodeURIComponent s)) as H.
  destruct (uri_unreserved c); simpl in H |- *; rewrite H, IH; reflexivity.
Qed.

Lemma utf8_decode_octets (s : string) : utf8_decode (utf8_octets s) = Some s.
Proof.
  induction s as [|c s IH]; [reflexivity|].
  cbn [utf8_octets]. now rewrite utf8_decode_char, IH.
Qed.

(** Decoding an encoded component gives the component back. *)
Lemma decodeURIComponent_encodeURIComponent (s : string) :
  decodeURIComponent (encodeURIComponent s) = Some s.
Proof.
  unfold decodeURIComponent. rewrite percent_decode_encoded. apply utf8_decode_octets.
Qed.

Lemma get_map_chars (f : ascii -> ascii) (s : string) (i : nat) :
  String.get i (map_chars f s) = option_map f (String.get i s).
Proof.
  revert i. induction s as [|c s IH]; intros i; [reflexivity|].
  destruct i as [|i]; [reflexivity|]. apply IH.
Qed.

(** C8.  When the stored key matches and the upstream GET succeeds with a
    body, the download handler answers 200 with the upstream body as it is
    and exactly these headers: [Content-Type: application/octet-stream];
    [Content-Disposition: attachment] carrying the fallback filename (each
    character outside letters, digits, [.], [-], [_] and space replaced by
    [_]) and the percent-encoded [filename*]; and the upstream
    [Content-Length], present in the response exactly when the upstream
    sent one (a [Content-Length] with an empty value counts as none).  The
    fallback name is the stored name position by position, a character of
    the class kept and any other replaced by [_]; the [filename*] value is
    plain ASCII and percent-decodes, as UTF-8, to the stored name. *)
Theorem download_relays_body_and_rewrites_headers
    (net : FetchRequest -> FetchOutcome) (st : Store) (req : Request)
    (id : string) (r : LinkRecord) (up : UpstreamResponse) (bytes : string) :
  st !! id = Some r ->
  (forall rq, fetch_url rq = link_url r -> net rq = FetchResolved up) ->
  up_ok up = true ->
  up_body up = Some bytes ->
  headers_get (up_headers up) "Content-Length" <> Some "" ->
  exists resp : Response,
    outcome (run net (downloadVideoHandler req id (link_key r)) st) = Returned resp
    /\ store_after (run net (downloadVideoHandler req id (link_key r)) st) = st
    /\ status resp = 200
    /\ body resp = BodyUpstream (Some bytes)
    /\ headers_get (headers resp) "Content-Type" = Some "application/octet-stream"
    /\ headers_get (headers resp) "Content-Disposition"
       = Some (attachment_disposition (link_filename r))
    /\ headers_get (headers resp) "Content-Length"
       = headers_get (up_headers up) "Content-Length"
    /\ (forall name, is_Some (headers resp !! name) ->
          name = "content-type" \/ name = "content-disposition" \/ name = "content-length")
    /\ all_chars in_fallback_class (map_chars fallback_char (link_filename r)) = true
    /\ String.length (map_chars fallback_char (link_filename r))
       = String.length (link_filename r)
    /\ all_chars (fun c => uri_unreserved c || (code c =? 37))
         (encodeURIComponent (link_filename r)) = true
    /\ (exists fallback encoded : string,
          headers_get (headers resp) "Content-Disposition"
          = Some ("attachment; filename=" ++ dquote ++ fallback ++ dquote
                  ++ "; filename*=UTF-8''" ++ encoded)
          /\ (forall (i : nat) (c : ascii),
                String.get i (link_filename r) = Some c ->
                String.get i fallback = Some (if in_fallback_class c then c else "_"%char))
          /\ String.length fallback = String.length (link_filename r)
          /\ decodeURIComponent encoded = Some (link_filename r)
          /\ all_chars (fun c => uri_unreserved c || (code c =? 37)) encoded = true).
Proof.
  intros Hst Hnet Hok Hbody Hcl.
  assert (Hpinned : forall h : Headers,
            h !! "content-disposition" = Some (attachment_disposition (link_filename r)) ->
            exists fallback encoded : string,
              h !! "content-disposition"
              = Some ("attachment; filename=" ++ dquote ++ fallback ++ dquote
                      ++ "; filename*=UTF-8''" ++ encoded)
              /\ (forall (i : nat) (c : ascii),
                    String.get i (link_filename r) = Some c ->
                    String.get i fallback
                    = Some (if in_fallback_class c then c else "_"%char))
              /\ String.length fallback = String.length (link_filename r)
              /\ decodeURIComponent encoded = Some (link_filename r)
              /\ all_chars (fun c => uri_unreserved c || (code c =? 37)) encoded = true).
  { intros h Hh.
    exists (map_chars fallback_char (link_filename r)),
           (encodeURIComponent (link_filename r)).
    split; [exact Hh|]. split; [|split; [|split]].
    - intros i c Hget. rewrite get_map_chars, Hget. reflexivity.
    - apply map_chars_length.
    - apply decodeURIComponent_encodeURIComponent.
    - apply encodeURIComponent_ascii. }
  unfold downloadVideoHandler. cbn [run]. rewrite Hst. cbn [run].
  rewrite String.eqb_refl. cbn [negb run].
  rewrite (Hnet {| fetch_url := link_url r; fetch_method := GET; fetch_headers := ∅ |}
             eq_refl).
  rewrite Hok, Hbody.
  rewrite replace_each_fallback.
  fold (attachment_disposition (link_filename r)).
  destruct (headers_get (up_headers up) "Content-Length") as [v|] eqn:Ev.
  - destruct v as [|c v]; [congruence|].
    eexists. split; [reflexivity|]. cbn.
    repeat match goal with |- _ /\ _ => split end; try reflexivity.
    + intros name [x Hx].
      unfold headers_set in Hx. cbn in Hx.
      repeat (apply lookup_insert_Some in Hx as [[<- _]|[_ Hx]]; [tauto|]).
      now rewrite lookup_empty in Hx.
    + apply fallback_all_in_class.
    + apply map_chars_length.
    + apply encodeURIComponent_ascii.
    + apply Hpinned. reflexivity.
  - eexists. split; [reflexivity|]. cbn.
    repeat match goal with |- _ /\ _ => split end; try reflexivity.
    + intros name [x Hx].
      unfold headers_set in Hx. cbn in Hx.
      repeat (apply lookup_insert_Some in Hx as [[<- _]|[_ Hx]]; [tauto|]).
      now rewrite lookup_empty in Hx.
    + apply fallback_all_in_class.
    + apply map_chars_length.
    + apply encodeURIComponent_ascii.
    + apply Hpinned. reflexivity.
Qed.

Lemma download_relays_body_and_rewrites_headers_witness :
  exists resp : Response,
    outcome (run (always demo_full)
               (downloadVideoHandler (demo_get "/download/clip-one" (Some "s3cret"))
                  "clip-one" "s3cret") demo_accented_store) = Returned resp
    /\ status resp = 200
    /\ body resp = BodyUpstream (Some "hello")
    /\ headers_get (headers resp) "Content-Length" = Some "5"
    /\ headers_get (headers resp) "Content-Disposition"
       = Some ("attachment; filename=" ++ dquote ++ "My Movie _1_ _.mp4" ++ dquote
               ++ "; filename*=UTF-8''My%20Movie%20(1)%20%C3%A9.mp4").
Proof.
  destruct (download_relays_body_and_rewrites_headers (always demo_full)
              demo_accented_store (demo_get "/download/clip-one" (Some "s3cret"))
              "clip-one" demo_accented_record demo_full "hello")
    as (resp & Hout & _ & Hs & Hb & _ & Hcd & Hcl & _).
  - reflexivity.
  - intros rq _. reflexivity.
  - reflexivity.
  - reflexivity.
  - vm_compute. discriminate.
  - exists resp. split; [exact Hout|]. split; [exact Hs|]. split; [exact Hb|].
    split; [rewrite Hcl; reflexivity|]. rewrite Hcd. reflexivity.
Defined.

(** ** Stream mode *)

(** C9.  When the stored key matches, the stream handler issues one upstream
    GET whose only header is the caller's [Range] (none when the caller sent
    none; a [Range] with an empty value counts as none).  When that GET
    succeeds, the answer carries the upstream status and the upstream body
    as they are, and the upstream headers with [Accept-Ranges] set to
    [bytes] and [Content-Disposition] removed; every other header is the
    upstream's. *)
Theorem stream_forwards_range_and_relays_upstream
    (net : FetchRequest -> FetchOutcome) (st : Store) (req : Request)
    (id : string) (r : LinkRecord) (up : UpstreamResponse) :
  st !! id = Some r ->
  headers_get (req_headers req) "Range" <> Some "" ->
  (forall rq, fetch_url rq = link_url r -> net rq = FetchResolved up) ->
  up_ok up = true ->
  (null_body_status (up_status up) = true -> up_body up = None) ->
  exists (line : ConsoleLine) (rq : FetchRequest) (resp : Response),
    run net (streamVideoHandler req id (link_key r)) st =
      {| outcome := Returned resp; store_after := st;
         trace := [EvKvGet id; EvConsole line; EvFetch rq] |}
    /\ fetch_url rq = link_url r
    /\ fetch_method rq = GET
    /\ headers_get (fetch_headers rq) "Range" = headers_get (req_headers req) "Range"
    /\ (forall name, name <> "range" -> fetch_headers rq !! name = None)
    /\ status resp = up_status up
    /\ body resp = BodyUpstream (up_body up)
    /\ headers_get (headers resp) "Accept-Ranges" = Some "bytes"
    /\ headers_get (headers resp) "Content-Disposition" = None
    /\ (forall name, name <> "accept-ranges" -> name <> "content-disposition" ->
          headers resp !! name = up_headers up !! name).
Proof.
  intros Hst Hrange Hnet Hok Hnull.
  unfold streamVideoHandler. cbn [run]. rewrite Hst. cbn [run].
  rewrite String.eqb_refl. cbn [negb run].
  set (fetchHeaders := if truthy (headers_get (req_headers req) "Range")
                       then headers_set ∅ "Range"
                              (default "" (headers_get (req_headers req) "Range"))
                       else ∅).
  rewrite (Hnet {| fetch_url := link_url r; fetch_method := GET;
                   fetch_headers := fetchHeaders |} eq_refl).
  rewrite Hok. cbn [negb]. unfold new_Response.
  rewrite (up_ok_status_in_range up Hok).
  assert (Hb : null_body_status (up_status up)
               && negb (body_is_null (BodyUpstream (up_body up))) = false).
  { destruct (null_body_status (up_status up)); [|reflexivity].
    rewrite (Hnull eq_refl). reflexivity. }
  rewrite Hb. cbn [run logged outcome store_after trace].
  eexists _, _, _. split; [reflexivity|]. cbn [fetch_url fetch_method fetch_headers status body headers].
  repeat split.
  - subst fetchHeaders.
    destruct (headers_get (req_headers req) "Range") as [v|] eqn:Ev; [|reflexivity].
    destruct v as [|c v]; [congruence|].
    cbn [truthy is_empty negb default].
    unfold headers_get, headers_set. apply lookup_insert_eq.
  - intros name Hname. subst fetchHeaders.
    destruct (truthy (headers_get (req_headers req) "Range")).
    + unfold headers_set. rewrite lookup_insert_ne; [apply lookup_empty|].
      intros E. apply Hname. rewrite <- E. reflexivity.
    + apply lookup_empty.
  - unfold headers_get, headers_delete, headers_set.
    rewrite lookup_delete_ne by (vm_compute; discriminate).
    apply lookup_insert_eq.
  - unfold headers_get, headers_delete. apply lookup_delete_eq.
  - intros name H1 H2. unfold headers_delete, headers_set.
    rewrite lookup_delete_ne by (intros E; apply H2; rewrite <- E; reflexivity).
    rewrite lookup_insert_ne by (intros E; apply H1; rewrite <- E; reflexivity).
    reflexivity.
Qed.

Lemma stream_forwards_range_and_relays_upstream_witness :
  exists (rq : FetchRequest) (resp : Response),
    outcome (run (always demo_partial)
               (streamVideoHandler demo_range_get "clip-one" "s3cret") demo_store)
    = Returned resp
    /\ headers_get (fetch_headers rq) "Range" = Some "bytes=0-99"
    /\ status resp = 206
    /\ headers_get (headers resp) "Accept-Ranges" = Some "bytes"
    /\ headers_get (headers resp) "Content-Disposition" = None.
Proof.
  destruct (stream_forwards_range_and_relays_upstream (always demo_partial) demo_store
              demo_range_get "clip-one" demo_record demo_partial)
    as (line & rq & resp & Hrun & _ & _ & Hr & _ & Hs & _ & Ha & Hd & _).
  - reflexivity.
  - vm_compute. discriminate.
  - intros rq _. reflexivity.
  - reflexivity.
  - vm_compute. discriminate.
  - exists rq, resp. repeat split.
    + change "s3cret" with (link_key demo_record). rewrite Hrun. reflexivity.
    + rewrite Hr. reflexivity.
    + exact Hs.
    + exact Ha.
    + exact Hd.
Defined.

(** ** Registration *)

Lemma truthy_Some_nonempty (s : string) : s <> "" -> truthy (Some s) = true.
Proof. intros H. destruct s; [contradiction|reflexivity]. Qed.

Lemma is_empty_false (s : string) : s <> "" -> is_empty s = false.
Proof. intros H. destruct s; [contradiction|reflexivity]. Qed.

(** A registration handled on its own never changes a record that is
    already stored, whatever the request and whatever the probe answers. *)
Lemma generateLinkHandler_keeps_records
    (net : FetchRequest -> FetchOutcome) (st : Store) (req : Request)
    (s : string) (r : LinkRecord) :
  st !! s = Some r ->
  store_after (run net (generateLinkHandler req) st) !! s = Some r.
Proof.
  intros Hs. unfold generateLinkHandler.
  destruct (req_form req !! "custom_id") as [custom_id|]; [|exact Hs].
  destruct (negb (truthy (req_form req !! "url")) || negb (truthy (req_form req !! "key"))
            || is_empty (slugify custom_id)); [exact Hs|].
  cbn [run logged store_after].
  destruct (st !! slugify custom_id) eqn:Hslug; [exact Hs|].
  assert (Hne : slugify custom_id <> s) by congruence.
  destruct (truthy (trim <$> req_form req !! "filename")).
  - cbn. now rewrite lookup_insert_ne.
  - cbn [run logged store_after].
    match goal with |- context [net ?rq] => destruct (net rq) end;
      cbn; now rewrite lookup_insert_ne.
Qed.

(** C1 (as the code has it).  In a store where the non-empty slug [s] of the
    label already maps to a record, a registration with non-empty [url] and
    [key] fields, handled with no other handler in between, performs the
    lookup only and is answered 409; the store is unchanged.  And no
    registration handled on its own changes a record already stored. *)
Theorem registration_rejects_taken_slug
    (net : FetchRequest -> FetchOutcome) (st : Store) (req : Request) :
  (forall (custom_id url key : string) (r : LinkRecord),
     req_form req !! "custom_id" = Some custom_id ->
     req_form req !! "url" = Some url -> url <> "" ->
     req_form req !! "key" = Some key -> key <> "" ->
     slugify custom_id <> "" ->
     st !! slugify custom_id = Some r ->
     run net (generateLinkHandler req) st =
       {| outcome := Returned (slug_taken_response (slugify custom_id));
          store_after := st; trace := [EvKvGet (slugify custom_id)] |})
  /\ (forall (s : string) (r : LinkRecord),
        st !! s = Some r ->
        store_after (run net (generateLinkHandler req) st) !! s = Some r).
Proof.
  split.
  - intros custom_id url key r Hc Hu Hune Hk Hkne Hsne Hst.
    unfold generateLinkHandler. rewrite Hc, Hu, Hk.
    rewrite (truthy_Some_nonempty _ Hune), (truthy_Some_nonempty _ Hkne),
      (is_empty_false _ Hsne).
    cbn [negb orb run]. rewrite Hst. reflexivity.
  - intros s r. apply generateLinkHandler_keeps_records.
Qed.

Lemma registration_rejects_taken_slug_witness :
  run (always demo_full) (generateLinkHandler second_registration) demo_store =
    {| outcome := Returned (slug_taken_response "clip-one");
       store_after := demo_store; trace := [EvKvGet "clip-one"] |}
  /\ store_after (run (always demo_full) (generateLinkHandler second_registration) demo_store)
       !! "clip-one" = Some demo_record.
Proof.
  split.
  - apply (proj1 (registration_rejects_taken_slug (always demo_full) demo_store
                    second_registration)
             "clip-one!" "https://ex.com/b.bin" "other" demo_record);
      try reflexivity; discriminate.
  - apply (proj2 (registration_rejects_taken_slug (always demo_full) demo_store
                    second_registration) "clip-one" demo_record).
    reflexivity.
Defined.

(** C1 as stated fails twice.  A request for a taken label that leaves the
    URL out is answered 400, not 409.  And two registrations whose labels
    normalise to the same slug, interleaved at their awaits (both look up,
    then both write), are both answered 200, the second write replacing the
    record the first one stored. *)
Lemma registration_taken_slug_counterexample :
  (slugify "Clip One" = "clip-one"
   /\ demo_store !! "clip-one" = Some demo_record
   /\ outcome (run (always demo_full) (generateLinkHandler registration_without_url)
                 demo_store)
      = Returned invalid_input_response)
  /\ (slugify "Clip One" = slugify "clip-one!"
      /\ snd (run_schedule (always demo_full) [0; 1; 0]%nat
                [generateLinkHandler first_registration;
                 generateLinkHandler second_registration] ∅)
         !! "clip-one" = Some demo_record
      /\ run_schedule (always demo_full) [0; 1; 0; 1]%nat
           [generateLinkHandler first_registration;
            generateLinkHandler second_registration] ∅
         = ([Return (generated_response "clip-one" "clip.mp4" "s3cret" "https://links.example");
             Return (generated_response "clip-one" "b.mp4" "other" "https://links.example")],
            {[ "clip-one" := second_record ]})
      /\ demo_record <> second_record).
Proof.
  split; [repeat split; reflexivity|].
  split; [reflexivity|]. split; [reflexivity|]. split; [|discriminate].
  vm_compute. reflexivity.
Qed.

(** *** Filename auto-detection *)

(** A rejected probe (network error, any exception of [fetch]) is caught:
    the registration is answered 200 and the stored filename is the slug
    followed by [.mp4]. *)
Lemma probe_rejected_falls_back
    (net : FetchRequest -> FetchOutcome) (st : Store) (req : Request)
    (custom_id url key message : string) :
  req_form req !! "custom_id" = Some custom_id ->
  req_form req !! "url" = Some url -> url <> "" ->
  req_form req !! "key" = Some key -> key <> "" ->
  truthy (trim <$> req_form req !! "filename") = false ->
  slugify custom_id <> "" ->
  st !! slugify custom_id = None ->
  net {| fetch_url := url; fetch_method := HEAD; fetch_headers := ∅ |}
    = FetchRejected message ->
  outcome (run net (generateLinkHandler req) st)
    = Returned (generated_response (slugify custom_id) (slugify custom_id ++ ".mp4") key
                  (req_origin req))
  /\ store_after (run net (generateLinkHandler req) st)
     = <[slugify custom_id :=
           {| link_url := url; link_key := key;
              link_filename := slugify custom_id ++ ".mp4" |}]> st.
Proof.
  intros Hc Hu Hune Hk Hkne Hf Hsne Hst Hnet.
  unfold generateLinkHandler. rewrite Hc, Hu, Hk, Hf.
  rewrite (truthy_Some_nonempty _ Hune), (truthy_Some_nonempty _ Hkne),
    (is_empty_false _ Hsne).
  cbn [negb orb run]. rewrite Hst. cbn [run default from_option id]. rewrite Hnet.
  split; reflexivity.
Qed.

(** A probe that resolves never fails the registration either, whatever its
    status: the answer is 200 and the stored filename is the slug followed
    by the extension of the probe's [Content-Type]. *)
Lemma probe_resolved_uses_content_type
    (net : FetchRequest -> FetchOutcome) (st : Store) (req : Request)
    (custom_id url key : string) (probe : UpstreamResponse) :
  req_form req !! "custom_id" = Some custom_id ->
  req_form req !! "url" = Some url -> url <> "" ->
  req_form req !! "key" = Some key -> key <> "" ->
  truthy (trim <$> req_form req !! "filename") = false ->
  slugify custom_id <> "" ->
  st !! slugify custom_id = None ->
  net {| fetch_url := url; fetch_method := HEAD; fetch_headers := ∅ |}
    = FetchResolved probe ->
  let finalFilename :=
    slugify custom_id
    ++ mapContentTypeToExtension (headers_get (up_headers probe) "Content-Type") in
  outcome (run net (generateLinkHandler req) st)
    = Returned (generated_response (slugify custom_id) finalFilename key (req_origin req))
  /\ store_after (run net (generateLinkHandler req) st)
     = <[slugify custom_id :=
           {| link_url := url; link_key := key; link_filename := finalFilename |}]> st.
Proof.
  intros Hc Hu Hune Hk Hkne Hf Hsne Hst Hnet.
  unfold generateLinkHandler. rewrite Hc, Hu, Hk, Hf.
  rewrite (truthy_Some_nonempty _ Hune), (truthy_Some_nonempty _ Hkne),
    (is_empty_false _ Hsne).
  cbn [negb orb run]. rewrite Hst. cbn [run default from_option id]. rewrite Hnet.
  split; reflexivity.
Qed.

(** C6, at the failing input.  The label [Clip] is registered with no
    filename; the HEAD probe resolves with status 404 and
    [Content-Type: video/webm].  The handler does not look at the status of
    the probe: the registration is answered 200 and the stored filename is
    [clip.webm], where the fallback would give [clip.mp4]. *)
Theorem probe_error_status_is_not_a_failure :
  up_ok demo_probe_error = false
  /\ run (always demo_probe_error) (generateLinkHandler registration_without_filename) ∅
     = {| outcome := Returned (generated_response "clip" "clip.webm" "s3cret"
                                 "https://links.example");
          store_after := {[ "clip" := {| link_url := "https://ex.com/a";
                                         link_key := "s3cret";
                                         link_filename := "clip.webm" |} ]};
          trace := [EvKvGet "clip";
                    EvConsole (ConsoleLog "Auto-detecting filename for: https://ex.com/a");
                    EvFetch {| fetch_url := "https://ex.com/a"; fetch_method := HEAD;
                               fetch_headers := ∅ |};
                    EvConsole (ConsoleLog
                      "Detected Content-Type: video/webm, Assigned Filename: clip.webm");
                    EvKvSet "clip" {| link_url := "https://ex.com/a";
                                      link_key := "s3cret";
                                      link_filename := "clip.webm" |}] |}
  /\ "clip.webm" <> slugify "Clip" ++ ".mp4".
Proof.
  split; [reflexivity|]. split; [vm_compute; reflexivity|].
  vm_compute. discriminate.
Qed.

(** ** Content-type resolver *)

Lemma all_chars_impl (p q : ascii -> bool) (s : string) :
  (forall c, p c = true -> q c = true) ->
  all_chars p s = true -> all_chars q s = true.
Proof.
  intros Hpq. induction s as [|c s IH]; simpl; [reflexivity|].
  intros H. apply andb_true_iff in H as [H1 H2].
  now rewrite (Hpq c H1), IH.
Qed.

Lemma drop_while_app_all (p : ascii -> bool) (lead s : string) :
  all_chars p lead = true -> drop_while p (lead ++ s) = drop_while p s.
Proof.
  induction lead as [|c lead IH]; simpl; [reflexivity|].
  intros H. apply andb_true_iff in H as [-> H2]. auto.
Qed.

Lemma strip_end_all (p : ascii -> bool) (s : string) :
  all_chars p s = true -> strip_end p s = "".
Proof.
  induction s as [|c s IH]; simpl; [reflexivity|].
  intros H. apply andb_true_iff in H as [-> H2]. now rewrite IH.
Qed.

Lemma strip_end_app_all (p : ascii -> bool) (s trail : string) :
  all_chars p trail = true -> strip_end p (s ++ trail) = strip_end p s.
Proof.
  intros H. induction s as [|c s IH]; simpl.
  - now apply strip_end_all.
  - now rewrite IH.
Qed.

Lemma before_semicolon_no_semicolon (s : string) :
  all_chars (fun c => negb (code c =? 59)) s = true -> before_semicolon s = s.
Proof.
  induction s as [|c s IH]; simpl; [reflexivity|].
  intros H. apply andb_true_iff in H as [H1 H2].
  apply negb_true_iff in H1. rewrite H1. now rewrite IH.
Qed.

Lemma before_semicolon_app (s params : string) :
  all_chars (fun c => negb (code c =? 59)) s = true ->
  before_semicolon (s ++ String ";" params) = s.
Proof.
  induction s as [|c s IH]; simpl; [reflexivity|].
  intros H. apply andb_true_iff in H as [H1 H2].
  apply negb_true_iff in H1. rewrite H1. now rewrite IH.
Qed.

Lemma space_not_semicolon (c : ascii) : is_space c = true -> negb (code c =? 59) = true.
Proof.
  destruct c as [[] [] [] [] [] [] [] []]; vm_compute; intros H;
    first [reflexivity | discriminate H].
Qed.

(** [trim] of a padded word gives the word back. *)
Lemma trim_padded (lead word trail : string) :
  all_chars is_space lead = true ->
  all_chars is_space trail = true ->
  starts_with (fun c => negb (is_space c)) word = true ->
  strip_end is_space word = word ->
  trim (lead ++ word ++ trail) = word.
Proof.
  intros Hl Ht Hw Hs. unfold trim.
  rewrite (drop_while_app_all _ _ _ Hl).
  destruct word as [|c word]; [discriminate|]. simpl in Hw.
  apply negb_true_iff in Hw.
  change (String c word ++ trail) with (String c (word ++ trail)).
  cbn [drop_while]. rewrite Hw.
  change (String c (word ++ trail)) with (String c word ++ trail).
  now rewrite (strip_end_app_all _ _ _ Ht).
Qed.

Lemma resolver_on_type (ct type ext : string) :
  In (type, ext) extension_table ->
  ct <> "" -> trim (before_semicolon ct) = type ->
  mapContentTypeToExtension (Some ct) = ext.
Proof.
  intros Hin Hne Ht. unfold mapContentTypeToExtension.
  rewrite (is_empty_false _ Hne). cbv zeta. rewrite Ht.
  simpl in Hin.
  repeat (destruct Hin as [[= <- <-]|Hin]; [reflexivity|]). contradiction.
Qed.

Lemma resolver_nonempty (contentType : option string) :
  mapContentTypeToExtension contentType <> "".
Proof.
  unfold mapContentTypeToExtension.
  destruct contentType as [ct|]; [|discriminate].
  destruct (is_empty ct); [discriminate|]. cbv zeta.
  repeat match goal with |- context [String.eqb ?a ?b] => destruct (String.eqb a b) end;
    discriminate.
Qed.

(** C7.  The resolver answers [.mp4] when there is no content type (or an
    empty one).  Otherwise it looks at what precedes the first [;], with the
    whitespace around it removed: each of the five listed types, however
    padded and whatever parameters follow, gives its listed extension, and
    any value whose type is none of the five gives [.mp4].  The result is
    never the empty string. *)
Theorem resolver_follows_table :
  mapContentTypeToExtension None = ".mp4"
  /\ mapContentTypeToExtension (Some "") = ".mp4"
  /\ (forall (type ext lead trail params : string),
        In (type, ext) extension_table ->
        all_chars is_space lead = true -> all_chars is_space trail = true ->
        mapContentTypeToExtension (Some (lead ++ type ++ trail)) = ext
        /\ mapContentTypeToExtension (Some (lead ++ type ++ trail ++ String ";" params)) = ext)
  /\ (forall ct : string,
        (forall type ext, In (type, ext) extension_table ->
                          trim (before_semicolon ct) <> type) ->
        mapContentTypeToExtension (Some ct) = ".mp4")
  /\ (forall contentType : option string, mapContentTypeToExtension contentType <> "").
Proof.
  split; [reflexivity|]. split; [reflexivity|]. split; [|split].
  - intros type ext lead trail params Hin Hl Ht.
    assert (Hword : starts_with (fun c => negb (is_space c)) type = true
                    /\ strip_end is_space type = type
                    /\ all_chars (fun c => negb (code c =? 59)) type = true).
    { simpl in Hin.
      repeat (destruct Hin as [[= <- <-]|Hin]; [repeat split; reflexivity|]).
      contradiction. }
    destruct Hword as (Hw1 & Hw2 & Hw3).
    assert (Hsemi : all_chars (fun c => negb (code c =? 59)) (lead ++ type ++ trail) = true).
    { rewrite !all_chars_app, Hw3.
      rewrite (all_chars_impl _ _ lead space_not_semicolon Hl).
      now rewrite (all_chars_impl _ _ trail space_not_semicolon Ht). }
    assert (Hne : forall rest, lead ++ type ++ rest <> "").
    { intros rest. destruct lead; [|discriminate].
      destruct type; [discriminate|discriminate]. }
    split.
    + apply (resolver_on_type _ type ext Hin (Hne _)).
      rewrite (before_semicolon_no_semicolon _ Hsemi). now apply trim_padded.
    + apply (resolver_on_type _ type ext Hin (Hne _)).
      replace (lead ++ type ++ trail ++ String ";" params)
        with ((lead ++ type ++ trail) ++ String ";" params).
      * rewrite (before_semicolon_app _ _ Hsemi). now apply trim_padded.
      * clear. induction lead as [|c lead IH]; simpl.
        -- induction type as [|c type IH]; simpl; [reflexivity|now rewrite IH].
        -- now rewrite IH.
  - intros ct Hnone. unfold mapContentTypeToExtension.
    destruct (is_empty ct); [reflexivity|]. cbv zeta.
    assert (Hf : forall type ext, In (type, ext) extension_table ->
                   String.eqb (trim (before_semicolon ct)) type = false)
      by (intros type ext Hin; apply eqb_neq_false; eauto).
    rewrite (Hf "video/mp4" ".mp4") by (simpl; tauto).
    rewrite (Hf "video/x-matroska" ".mkv") by (simpl; tauto).
    rewrite (Hf "video/webm" ".webm") by (simpl; tauto).
    rewrite (Hf "video/quicktime" ".mov") by (simpl; tauto).
    rewrite (Hf "application/octet-stream" ".bin") by (simpl; tauto).
    reflexivity.
  - apply resolver_nonempty.
Qed.

Lemma resolver_follows_table_witness :
  mapContentTypeToExtension (Some (" " ++ "video/x-matroska" ++ " ")) = ".mkv"
  /\ mapContentTypeToExtension
       (Some (" " ++ "video/x-matroska" ++ " " ++ String ";" " charset=binary")) = ".mkv".
Proof.
  apply (proj1 (proj2 (proj2 resolver_follows_table))
           "video/x-matroska" ".mkv" " " " " " charset=binary").
  - simpl. auto.
  - reflexivity.
  - reflexivity.
Defined.

(** ** Slug normalisation *)

(** *** Character classes *)

Lemma char_cases (c : ascii) :
  (is_slug_alnum c = true /\ is_space c = false /\ is_hyphen c = false
   /\ outside_slug_class c = false /\ is_sep c = false)
  \/ (is_slug_alnum c = false /\ is_space c = true /\ is_hyphen c = false
      /\ outside_slug_class c = false /\ is_sep c = true)
  \/ (is_slug_alnum c = false /\ is_space c = false /\ is_hyphen c = true
      /\ outside_slug_class c = false /\ is_sep c = true)
  \/ (is_slug_alnum c = false /\ is_space c = false /\ is_hyphen c = false
      /\ outside_slug_class c = true /\ is_sep c = true).
Proof. destruct c as [[] [] [] [] [] [] [] []]; vm_compute; tauto. Qed.

Lemma is_hyphen_eq (c : ascii) : is_hyphen c = true -> c = "-"%char.
Proof.
  destruct c as [[] [] [] [] [] [] [] []]; vm_compute; intros H;
    first [reflexivity | discriminate H].
Qed.

Lemma lower_char_space (c : ascii) : is_space (lower_char c) = is_space c.
Proof. destruct c as [[] [] [] [] [] [] [] []]; reflexivity. Qed.

Lemma lower_char_fixes_slug_chars (c : ascii) :
  is_slug_alnum c || is_hyphen c = true -> lower_char c = c.
Proof.
  destruct c as [[] [] [] [] [] [] [] []]; vm_compute; intros H;
    first [reflexivity | discriminate H].
Qed.

Ltac char_class c :=
  let Ha := fresh "Halnum" in
  let Hs := fresh "Hspace" in
  let Hh := fresh "Hhyphen" in
  let Ho := fresh "Houtside" in
  let Hp := fresh "Hsep" in
  destruct (char_cases c) as [(Ha & Hs & Hh & Ho & Hp)|[(Ha & Hs & Hh & Ho & Hp)
                             |[(Ha & Hs & Hh & Ho & Hp)|(Ha & Hs & Hh & Ho & Hp)]]].

Ltac step_passes :=
  repeat progress
    (simpl;
     repeat match goal with
            | H : _ ?c = _ |- context [if ?f ?c then _ else _] => rewrite H
            end).

(** *** The three middle passes fuse into one *)

Abbreviation runs := replace_runs_from.

(** What the handler computes between [toLowerCase] and the final strip. *)
Lemma passes_fuse_each (t : string) :
  (forall b2, runs is_hyphen "-" true (runs is_space "-" b2 (replace_each outside_slug_class "-" t))
              = runs is_sep "-" true t)
  /\ runs is_hyphen "-" false (runs is_space "-" false (replace_each outside_slug_class "-" t))
     = runs is_sep "-" false t.
Proof.
  induction t as [|c t [IHt IHf]]; [split; reflexivity|].
  split.
  - intros b2. char_class c; step_passes.
    + now rewrite IHf.
    + destruct b2; step_passes; apply IHt.
    + apply IHt.
    + apply IHt.
  - char_class c; step_passes.
    + now rewrite IHf.
    + now rewrite IHt.
    + now rewrite IHt.
    + now rewrite IHt.
Qed.

(** The same for the specification's wording, where the first pass already
    replaces whole runs. *)
Lemma passes_fuse_runs (t : string) :
  (forall b2 b3, runs is_hyphen "-" true
                   (runs is_space "-" b2 (runs outside_slug_class "-" b3 t))
                 = runs is_sep "-" true t)
  /\ runs is_hyphen "-" false
       (runs is_space "-" false (runs outside_slug_class "-" false t))
     = runs is_sep "-" false t.
Proof.
  induction t as [|c t [IHt IHf]]; [split; reflexivity|].
  split.
  - intros b2 b3. char_class c; step_passes.
    + now rewrite IHf.
    + destruct b2; step_passes; apply IHt.
    + apply IHt.
    + destruct b3; step_passes; apply IHt.
  - char_class c; step_passes.
    + now rewrite IHf.
    + now rewrite IHt.
    + now rewrite IHt.
    + now rewrite IHt.
Qed.

(** *** Trimming first changes nothing *)

Lemma drop_while_map (p : ascii -> bool) (f : ascii -> ascii) (s : string) :
  (forall c, p (f c) = p c) ->
  drop_while p (map_chars f s) = map_chars f (drop_while p s).
Proof.
  intros Hp. induction s as [|c s IH]; simpl; [reflexivity|].
  rewrite Hp. now destruct (p c).
Qed.

Lemma is_empty_map (f : ascii -> ascii) (s : string) :
  is_empty (map_chars f s) = is_empty s.
Proof. now destruct s. Qed.

Lemma strip_end_map (p : ascii -> bool) (f : ascii -> ascii) (s : string) :
  (forall c, p (f c) = p c) ->
  strip_end p (map_chars f s) = map_chars f (strip_end p s).
Proof.
  intros Hp. induction s as [|c s IH]; simpl; [reflexivity|].
  rewrite Hp, IH, is_empty_map. now destruct (p c && is_empty (strip_end p s)).
Qed.

Lemma toLowerCase_trim (s : string) : toLowerCase (trim s) = trim (toLowerCase s).
Proof.
  unfold toLowerCase, trim.
  rewrite (drop_while_map _ _ _ lower_char_space).
  now rewrite (strip_end_map _ _ _ lower_char_space).
Qed.

(** After a separator the one-pass form never starts with a hyphen, so
    stripping the leading hyphens amounts to starting after a separator. *)
Lemma drop_leading_hyphens (b : bool) (t : string) :
  drop_while is_hyphen (runs is_sep "-" b t) = runs is_sep "-" true t.
Proof.
  revert b. induction t as [|c t IH]; intros b; [reflexivity|].
  char_class c; destruct b; step_passes; first [reflexivity | apply IH].
Qed.

Lemma leading_space_is_separator (t : string) :
  runs is_sep "-" true (drop_while is_space t) = runs is_sep "-" true t.
Proof.
  induction t as [|c t IH]; [reflexivity|].
  char_class c; step_passes; try reflexivity. apply IH.
Qed.

Lemma strip_end_cons (p : ascii -> bool) (c : ascii) (x y : string) :
  strip_end p x = strip_end p y ->
  strip_end p (String c x) = strip_end p (String c y).
Proof. intros H. simpl. now rewrite H. Qed.

Lemma trailing_space_is_separator (b : bool) (t : string) :
  strip_end is_hyphen (runs is_sep "-" b (strip_end is_space t))
  = strip_end is_hyphen (runs is_sep "-" b t).
Proof.
  revert b. induction t as [|c t IH]; intros b; [reflexivity|].
  cbn [strip_end].
  destruct (is_space c && is_empty (strip_end is_space t)) eqn:E.
  - apply andb_true_iff in E as [Hc He].
    destruct (strip_end is_space t) eqn:Er; [|discriminate].
    pose proof (IH true) as Htail. cbn [replace_runs_from strip_end] in Htail.
    char_class c; try congruence.
    cbn [replace_runs_from strip_end]. rewrite Hsep.
    destruct b; [exact Htail|].
    simpl. rewrite <- Htail. reflexivity.
  - char_class c; cbn [replace_runs_from]; rewrite Hsep.
    + apply strip_end_cons, IH.
    + destruct b; [apply IH|apply strip_end_cons, IH].
    + destruct b; [apply IH|apply strip_end_cons, IH].
    + destruct b; [apply IH|apply strip_end_cons, IH].
Qed.

(** *** The handler's pipeline and the specification's, in one pass *)

Lemma slugify_canonical (custom_id : string) :
  slugify custom_id = canonical_slug (toLowerCase custom_id).
Proof.
  unfold slugify, strip_hyphens, replace_runs, canonical_slug.
  rewrite (proj2 (passes_fuse_each _)), drop_leading_hyphens, toLowerCase_trim.
  unfold trim. now rewrite trailing_space_is_separator, leading_space_is_separator.
Qed.

Lemma spec_normalize_canonical (label : string) :
  spec_normalize label = canonical_slug (toLowerCase label).
Proof.
  unfold spec_normalize, strip_hyphens, replace_runs, canonical_slug.
  now rewrite (proj2 (passes_fuse_runs _)), drop_leading_hyphens.
Qed.

(** *** Shape of the result *)

Lemma runs_sep_shape (b : bool) (t : string) :
  hyphens_single b (runs is_sep "-" b t) = true.
Proof.
  revert b. induction t as [|c t IH]; intros b; [reflexivity|].
  char_class c; cbn [replace_runs_from]; rewrite Hsep.
  - cbn [hyphens_single]. rewrite Hhyphen, Halnum. apply IH.
  - destruct b; [apply IH|]. simpl. apply IH.
  - destruct b; [apply IH|]. simpl. apply IH.
  - destruct b; [apply IH|]. simpl. apply IH.
Qed.

Lemma strip_end_shape (b : bool) (s : string) :
  hyphens_single b s = true -> hyphens_single b (strip_end is_hyphen s) = true.
Proof.
  revert b. induction s as [|c s IH]; intros b H; [reflexivity|].
  cbn [strip_end]. destruct (is_hyphen c && is_empty (strip_end is_hyphen s)); [reflexivity|].
  cbn [hyphens_single] in *. destruct (is_hyphen c).
  - apply andb_true_iff in H as [-> H]. now rewrite IH.
  - apply andb_true_iff in H as [-> H]. now rewrite IH.
Qed.

Lemma strip_end_no_trailing (s : string) :
  ends_with_hyphen (strip_end is_hyphen s) = false.
Proof.
  induction s as [|c s IH]; [reflexivity|].
  cbn [strip_end]. destruct (strip_end is_hyphen s) as [|d r] eqn:E.
  - destruct (is_hyphen c) eqn:Hc; simpl; [reflexivity|exact Hc].
  - rewrite andb_false_r. exact IH.
Qed.

Lemma hyphens_single_chars (b : bool) (s : string) :
  hyphens_single b s = true ->
  all_chars (fun c => is_slug_alnum c || is_hyphen c) s = true
  /\ has_double_hyphen s = false
  /\ (b = true -> starts_with_hyphen s = false).
Proof.
  revert b. induction s as [|c s IH]; intros b H; [repeat split; reflexivity|].
  cbn [hyphens_single] in H. cbn [all_chars has_double_hyphen starts_with_hyphen].
  destruct (is_hyphen c) eqn:Hc.
  - apply andb_true_iff in H as [Hb H]. apply negb_true_iff in Hb. subst b.
    destruct (IH true H) as (Ha & Hd & Hs).
    rewrite Ha, Hd, (Hs eq_refl), orb_true_r. repeat split; try reflexivity.
    discriminate.
  - apply andb_true_iff in H as [Hal H].
    destruct (IH false H) as (Ha & Hd & _).
    rewrite Ha, Hd, Hal. repeat split; reflexivity.
Qed.

(** A non-empty canonical slug is URL-safe. *)
Lemma canonical_slug_url_safe (t : string) :
  canonical_slug t <> "" -> url_safe (canonical_slug t) = true.
Proof.
  intros Hne. unfold url_safe.
  pose proof (strip_end_shape true _ (runs_sep_shape true t)) as Hshape.
  fold (canonical_slug t) in Hshape.
  destruct (hyphens_single_chars true _ Hshape) as (Ha & Hd & Hs).
  rewrite (is_empty_false _ Hne), Ha, Hd, (Hs eq_refl).
  unfold canonical_slug. now rewrite strip_end_no_trailing.
Qed.

Lemma slugify_url_safe (custom_id : string) :
  slugify custom_id <> "" -> url_safe (slugify custom_id) = true.
Proof. rewrite slugify_canonical. apply canonical_slug_url_safe. Qed.

(** *** A slug is its own slug *)

Lemma runs_sep_fixes_shape (b : bool) (s : string) :
  hyphens_single b s = true -> runs is_sep "-" b s = s.
Proof.
  revert b. induction s as [|c s IH]; intros b H; [reflexivity|].
  cbn [hyphens_single] in H. char_class c; rewrite Hhyphen in H;
    cbn [replace_runs_from]; rewrite Hsep.
  - apply andb_true_iff in H as [_ H]. now rewrite IH.
  - rewrite Halnum in H. discriminate.
  - apply andb_true_iff in H as [Hb H]. apply negb_true_iff in Hb. subst b.
    rewrite (is_hyphen_eq c Hhyphen). simpl. now rewrite IH.
  - rewrite Halnum in H. discriminate.
Qed.

Lemma strip_end_fixes_untrailed (s : string) :
  ends_with_hyphen s = false -> strip_end is_hyphen s = s.
Proof.
  induction s as [|c s IH]; [reflexivity|].
  intros H. cbn [strip_end]. destruct s as [|d s].
  - simpl in *. now rewrite H.
  - rewrite IH by exact H. now rewrite andb_false_r.
Qed.

Lemma toLowerCase_fixes_slug_chars (s : string) :
  all_chars (fun c => is_slug_alnum c || is_hyphen c) s = true -> toLowerCase s = s.
Proof.
  induction s as [|c s IH]; [reflexivity|].
  intros H. cbn [all_chars] in H. apply andb_true_iff in H as [Hc H].
  unfold toLowerCase in *. cbn [map_chars]. now rewrite (lower_char_fixes_slug_chars c Hc), IH.
Qed.

Lemma slugify_idempotent (label : string) : slugify (slugify label) = slugify label.
Proof.
  rewrite !slugify_canonical.
  set (o := canonical_slug (toLowerCase label)).
  assert (Hshape : hyphens_single true o = true)
    by apply (strip_end_shape true _ (runs_sep_shape true _)).
  assert (Hend : ends_with_hyphen o = false) by apply strip_end_no_trailing.
  destruct (hyphens_single_chars true o Hshape) as (Ha & _ & _).
  rewrite (toLowerCase_fixes_slug_chars o Ha).
  unfold canonical_slug at 1. rewrite (runs_sep_fixes_shape true o Hshape).
  now apply strip_end_fixes_untrailed.
Qed.

(** C4.  The slug computed by the handler is the one the specification's
    algorithm gives (lower-case; runs outside [a-z0-9\s-] to a hyphen;
    whitespace runs to a hyphen; repeated hyphens to one; hyphens at the two
    ends stripped), for every label.  Normalising is a function of the label,
    and normalising a slug again gives the same slug.  The label
    [My Movie! 2023] gives [my-movie-2023]; the empty label and [!!!] give
    the empty slug, and a registration whose label gives the empty slug is
    answered 400 before any store access.  Whatever the label, the slug is
    empty or is made of lowercase letters, digits and single hyphens with no
    hyphen at either end; so a separator at one end of a label leaves no
    trace ([a!] and [!a] both give [a]) and a mixed run of separators
    between two words gives one hyphen. *)
Theorem slug_normalisation_as_specified :
  (forall label : string, slugify label = spec_normalize label)
  /\ (forall label : string, slugify (slugify label) = slugify label)
  /\ slugify "My Movie! 2023" = "my-movie-2023"
  /\ slugify "" = ""
  /\ slugify "!!!" = ""
  /\ (forall (net : FetchRequest -> FetchOutcome) (st : Store) (req : Request)
             (label : string),
        req_form req !! "custom_id" = Some label ->
        slugify label = "" ->
        run net (generateLinkHandler req) st =
          {| outcome := Returned invalid_input_response; store_after := st; trace := [] |})
  /\ (forall label : string, slugify label = "" \/ url_safe (slugify label) = true)
  /\ slugify "a!" = "a"
  /\ slugify "!a" = "a"
  /\ slugify "-a-" = "a"
  /\ slugify " a " = "a"
  /\ slugify "a - b" = "a-b"
  /\ slugify "  --Hello___World 2--  " = "hello-world-2"
  /\ spec_normalize "a!" = "a"
  /\ spec_normalize " !a" = "a".
Proof.
  repeat match goal with |- _ /\ _ => split end; try reflexivity.
  - intros label. now rewrite slugify_canonical, spec_normalize_canonical.
  - apply slugify_idempotent.
  - intros net st req label Hc Hs. unfold generateLinkHandler.
    rewrite Hc, Hs. cbn [is_empty]. rewrite !orb_true_r. reflexivity.
  - intros label. destruct (slugify label) as [|c s] eqn:E; [now left|].
    right. rewrite <- E. apply slugify_url_safe. rewrite E. discriminate.
Qed.

Lemma slug_normalisation_as_specified_witness :
  run (always demo_full)
      (generateLinkHandler
         (demo_post {[ "url" := "https://ex.com/a.bin"; "key" := "s3cret";
                       "custom_id" := "!!!" ]}))
      demo_store
  = {| outcome := Returned invalid_input_response; store_after := demo_store; trace := [] |}.
Proof.
  apply (proj1 (proj2 (proj2 (proj2 (proj2 (proj2 slug_normalisation_as_specified)))))
           (always demo_full) demo_store _ "!!!").
  - reflexivity.
  - reflexivity.
Defined.

(** ** Store invariant: every stored slug is URL-safe *)

Lemma new_Response_writes_safe (b : Body) (s : N) (h : Headers) :
  writes_safe (new_Response b s h).
Proof.
  unfold new_Response.
  destruct ((s <? 200) || (599 <? s)); [exact I|].
  destruct (null_body_status s && negb (body_is_null b)); exact I.
Qed.

Lemma prog_bind_writes_safe {A B : Type} (f : A -> Prog B) (p : Prog A) :
  writes_safe p -> (forall a, writes_safe (f a)) -> writes_safe (prog_bind f p).
Proof.
  intros Hp Hf. induction p as [a| |slug k IH|slug r k IH|slug k IH|k IH|rq k IH|line k IH];
    simpl in *; auto.
  destruct Hp as [Hs Hk]. auto.
Qed.

Lemma checkAdminAuth_writes_safe (pw key : option string) :
  writes_safe (checkAdminAuth pw key).
Proof. unfold checkAdminAuth. destruct (negb (truthy pw)); exact I. Qed.

(** The only write of the registration handler is under [slugify] of the
    label, after the empty slug has been refused. *)
Lemma generateLinkHandler_writes_safe (req : Request) :
  writes_safe (generateLinkHandler req).
Proof.
  unfold generateLinkHandler.
  destruct (req_form req !! "custom_id") as [custom_id|]; [|exact I].
  destruct (negb (truthy (req_form req !! "url")) || negb (truthy (req_form req !! "key")))
    eqn:Hfields; cbn [orb]; [apply new_Response_writes_safe|].
  destruct (is_empty (slugify custom_id)) eqn:Hslug; [apply new_Response_writes_safe|].
  assert (Hsafe : url_safe (slugify custom_id) = true).
  { apply slugify_url_safe. intros E. rewrite E in Hslug. discriminate. }
  intros existing. destruct existing; [apply new_Response_writes_safe|].
  destruct (truthy (trim <$> req_form req !! "filename")).
  - split; [exact Hsafe|apply new_Response_writes_safe].
  - intros fetched. destruct fetched; (split; [exact Hsafe|apply new_Response_writes_safe]).
Qed.

Lemma streamVideoHandler_writes_safe (req : Request) (id key : string) :
  writes_safe (streamVideoHandler req id key).
Proof.
  unfold streamVideoHandler. intros record. destruct record as [value|];
    [|apply new_Response_writes_safe].
  destruct (negb (String.eqb (link_key value) key)); [apply new_Response_writes_safe|].
  intros fetched. destruct fetched as [|up]; [exact I|].
  destruct (negb (up_ok up)); apply new_Response_writes_safe.
Qed.

Lemma downloadVideoHandler_writes_safe (req : Request) (id key : string) :
  writes_safe (downloadVideoHandler req id key).
Proof.
  unfold downloadVideoHandler. intros record. destruct record as [value|];
    [|apply new_Response_writes_safe].
  destruct (negb (String.eqb (link_key value) key)); [apply new_Response_writes_safe|].
  intros fetched. destruct fetched as [|up]; [exact I|].
  destruct (negb (up_ok up) || negb (bool_decide (is_Some (up_body up))));
    apply new_Response_writes_safe.
Qed.

Lemma adminPageHandler_writes_safe (pw : option string) (req : Request) :
  writes_safe (adminPageHandler pw req).
Proof.
  unfold adminPageHandler. destruct (negb (truthy pw)); [apply new_Response_writes_safe|].
  apply prog_bind_writes_safe; [apply checkAdminAuth_writes_safe|].
  intros authorised. destruct (negb authorised); [apply new_Response_writes_safe|].
  intros links. apply new_Response_writes_safe.
Qed.

Lemma deleteLinkHandler_writes_safe (pw : option string) (req : Request) :
  writes_safe (deleteLinkHandler pw req).
Proof.
  unfold deleteLinkHandler.
  apply prog_bind_writes_safe; [apply checkAdminAuth_writes_safe|].
  intros authorised. destruct (negb authorised); [apply new_Response_writes_safe|].
  destruct (truthy (req_form req !! "id")); exact I.
Qed.

Lemma serve_writes_safe (pw : option string) (req : Request) :
  writes_safe (serve pw req).
Proof.
  unfold serve.
  destruct (_ && _); [apply new_Response_writes_safe|].
  destruct (_ && _); [apply generateLinkHandler_writes_safe|].
  destruct (_ && _); [apply adminPageHandler_writes_safe|].
  destruct (_ && _); [apply deleteLinkHandler_writes_safe|].
  destruct (pattern_exec "/stream/" (req_pathname req)) as [id|],
           (method_eqb (req_method req) GET),
           (pattern_exec "/download/" (req_pathname req)) as [id'|];
    try destruct (negb (truthy (req_search_key req)));
    first [apply new_Response_writes_safe
          | apply streamVideoHandler_writes_safe
          | apply downloadVideoHandler_writes_safe].
Qed.

Lemma store_safe_empty : store_safe ∅.
Proof. intros slug [r Hr]. now rewrite lookup_empty in Hr. Qed.

Lemma store_safe_insert (st : Store) (slug : string) (r : LinkRecord) :
  url_safe slug = true -> store_safe st -> store_safe (<[slug := r]> st).
Proof.
  intros Hs Hst k [v Hv]. apply lookup_insert_Some in Hv as [[<- _]|[_ Hv]]; [exact Hs|].
  apply Hst. now exists v.
Qed.

Lemma store_safe_delete (st : Store) (slug : string) :
  store_safe st -> store_safe (delete slug st).
Proof.
  intros Hst k [v Hv]. apply lookup_delete_Some in Hv as [_ Hv]. apply Hst. now exists v.
Qed.

(** One effect of a safe program leaves a safe program and a safe store. *)
Lemma step_safe {A : Type} (net : FetchRequest -> FetchOutcome) (p : Prog A) (st : Store) :
  writes_safe p -> store_safe st ->
  writes_safe (fst (step net p st)) /\ store_safe (snd (step net p st)).
Proof.
  intros Hp Hst. destruct p; simpl in *; auto.
  - destruct Hp as [Hs Hk]. split; [exact Hk|]. now apply store_safe_insert.
  - split; [exact Hp|]. now apply store_safe_delete.
Qed.

Lemma run_schedule_safe {A : Type} (net : FetchRequest -> FetchOutcome)
    (sched : list nat) (pool : list (Prog A)) (st : Store) :
  Forall writes_safe pool -> store_safe st ->
  store_safe (snd (run_schedule net sched pool st)).
Proof.
  revert pool st. induction sched as [|i sched IH]; intros pool st Hpool Hst; [exact Hst|].
  cbn [run_schedule]. destruct (pool !! i) as [p|] eqn:Hi; [|now apply IH].
  pose proof (proj1 (Forall_lookup _ _) Hpool i p Hi) as Hp.
  destruct (step_safe net p st Hp Hst) as [Hp' Hst'].
  destruct (step net p st) as [p' st']. apply IH; [|exact Hst'].
  apply Forall_insert; assumption.
Qed.

(** Every write recorded in the trace of a safe program is under a URL-safe
    slug. *)
Lemma run_trace_safe {A : Type} (net : FetchRequest -> FetchOutcome) (p : Prog A)
    (st : Store) (slug : string) (r : LinkRecord) :
  writes_safe p -> In (EvKvSet slug r) (trace (run net p st)) -> url_safe slug = true.
Proof.
  revert st. induction p as [a| |s k IH|s r' k IH|s k IH|k IH|rq k IH|line k IH];
    intros st Hp Hin; simpl in *.
  - contradiction.
  - contradiction.
  - destruct Hin as [E|Hin]; [discriminate|]. eapply IH; eauto.
  - destruct Hp as [Hs Hk]. destruct Hin as [E|Hin]; [now injection E as <- _|].
    eapply IH; eauto.
  - destruct Hin as [E|Hin]; [discriminate|]. eapply IH; eauto.
  - destruct Hin as [E|Hin]; [discriminate|]. eapply IH; eauto.
  - destruct Hin as [E|Hin]; [discriminate|]. eapply IH; eauto.
  - destruct Hin as [E|Hin]; [discriminate|]. eapply IH; eauto.
Qed.

(** C5.  Whatever the request, the probe and the store, every record the
    registration handler persists goes under a slug that is non-empty and
    made of lowercase ASCII letters, digits and hyphens with no hyphen at
    either end and no two hyphens in a row.  Hence, starting from the empty
    store, every slug in the store is URL-safe after any requests served in
    any interleaving. *)
Theorem persisted_slugs_are_url_safe :
  (forall (net : FetchRequest -> FetchOutcome) (st : Store) (req : Request)
          (slug : string) (r : LinkRecord),
     In (EvKvSet slug r) (trace (run net (generateLinkHandler req) st)) ->
     url_safe slug = true)
  /\ (forall (pw : option string) (net : FetchRequest -> FetchOutcome)
             (requests : list Request) (sched : list nat),
        store_safe (snd (run_schedule net sched (map (serve pw) requests) ∅))).
Proof.
  split.
  - intros net st req slug r. apply run_trace_safe, generateLinkHandler_writes_safe.
  - intros pw net requests sched. apply run_schedule_safe; [|apply store_safe_empty].
    apply Forall_forall. intros p Hp. apply list_elem_of_In, in_map_iff in Hp as (req & <- & _).
    apply serve_writes_safe.
Qed.

Lemma persisted_slugs_are_url_safe_witness : url_safe "clip-one" = true.
Proof.
  apply (proj1 persisted_slugs_are_url_safe (always demo_full) ∅ first_registration
           "clip-one" demo_record).
  vm_compute. right. left. reflexivity.
Defined.

(** ** The earlier revision, for comparison *)

(** On the specification's example the two revisions agree. *)
Lemma earlier_revision_agrees_on_example :
  EarlierRevision.slug_of "My Movie! 2023" = slugify "My Movie! 2023".
Proof. reflexivity. Qed.

(** They part where hyphens meet whitespace or stand at an end: the earlier
    pipeline has no pass that collapses or strips hyphens. *)
Lemma earlier_revision_keeps_hyphen_runs :
  EarlierRevision.slug_of "a - b" = "a---b"
  /\ url_safe (EarlierRevision.slug_of "a - b") = false
  /\ slugify "a - b" = "a-b"
  /\ EarlierRevision.slug_of "-a" = "-a"
  /\ slugify "-a" = "a".
Proof. repeat split; reflexivity. Qed.

(** * Further properties of the handlers *)

(** ** Administrative operations *)

Lemma truthy_Some_true (pw : string) : pw <> "" -> negb (truthy (Some pw)) = false.
Proof. intros H. now rewrite (truthy_Some_nonempty _ H). Qed.












(** X2.  With the credential configured, a request whose key is not the
    credential (or has no key) gets nothing out of the administrative
    handlers: the admin page answers the login form and the delete handler
    answers 403, the store is neither listed nor changed, and nothing is
    written to the console. *)
Theorem wrong_admin_key_reaches_nothing
    (net : FetchRequest -> FetchOutcome) (st : Store) (req : Request) (pw : string) :
  pw <> "" ->
  req_search_key req <> Some pw ->
  run net (adminPageHandler (Some pw) req) st =
    {| outcome := Returned login_response; store_after := st; trace := [] |}
  /\ run net (deleteLinkHandler (Some pw) req) st =
    {| outcome := Returned unauthorized_response; store_after := st; trace := [] |}.
Proof.
  intros Hpw Hkey.
  unfold adminPageHandler, deleteLinkHandler, checkAdminAuth.
  rewrite (truthy_Some_true _ Hpw).
  rewrite bool_decide_eq_false_2 by exact Hkey. split; reflexivity.
Qed.

Lemma wrong_admin_key_reaches_nothing_witness :
  run (always demo_full)
      (deleteLinkHandler (Some "master") (demo_delete (Some "guess") {[ "id" := "clip-one" ]}))
      demo_two_links
  = {| outcome := Returned unauthorized_response; store_after := demo_two_links;
       trace := [] |}.
Proof.
  apply (proj2 (wrong_admin_key_reaches_nothing (always demo_full) demo_two_links
                  (demo_delete (Some "guess") {[ "id" := "clip-one" ]}) "master"
                  ltac:(discriminate) ltac:(discriminate))).
Defined.

(** X3.  With the credential configured and presented, the admin page lists
    the store once and shows one row per stored link, the row of a link
    being its filename and its slug; the store is unchanged. *)
Theorem dashboard_lists_the_store
    (net : FetchRequest -> FetchOutcome) (st : Store) (req : Request) (pw : string) :
  pw <> "" ->
  req_search_key req = Some pw ->
  exists rows : list (string * string),
    run net (adminPageHandler (Some pw) req) st =
      {| outcome := Returned (dashboard_response rows); store_after := st;
         trace := [EvKvList] |}
    /\ length rows = size st
    /\ (forall filename slug : string,
          In (filename, slug) rows <->
          exists r, st !! slug = Some r /\ link_filename r = filename).
Proof.
  intros Hpw Hkey.
  exists (map (fun entry => (link_filename (snd entry), fst entry)) (map_to_list st)).
  split; [|split].
  - unfold adminPageHandler, checkAdminAuth.
    rewrite (truthy_Some_true _ Hpw), Hkey.
    rewrite bool_decide_eq_true_2 by reflexivity. reflexivity.
  - rewrite length_map. apply length_map_to_list.
  - intros filename slug. rewrite in_map_iff. split.
    + intros ([s r] & [= <- <-] & Hin). exists r. split; [|reflexivity].
      apply elem_of_map_to_list. now apply list_elem_of_In.
    + intros (r & Hr & <-). exists (slug, r). split; [reflexivity|].
      apply list_elem_of_In. now apply elem_of_map_to_list.
Qed.

Lemma dashboard_lists_the_store_witness :
  exists rows : list (string * string),
    outcome (run (always demo_full)
               (adminPageHandler (Some "master") (demo_delete (Some "master") ∅))
               demo_two_links)
    = Returned (dashboard_response rows)
    /\ length rows = 2%nat
    /\ In ("b.mp4", "other") rows.
Proof.
  destruct (dashboard_lists_the_store (always demo_full) demo_two_links
              (demo_delete (Some "master") ∅) "master" ltac:(discriminate) eq_refl)
    as (rows & Hrun & Hlen & Hrows).
  exists rows. split; [|split].
  - rewrite Hrun. reflexivity.
  - rewrite Hlen. reflexivity.
  - apply Hrows. exists second_record. split; reflexivity.
Defined.

(** ** What a request can and cannot do to the store *)

Lemma run_read_only {A : Type} (net : FetchRequest -> FetchOutcome) (p : Prog A)
    (st : Store) :
  read_only p -> store_after (run net p st) = st.
Proof.
  induction p as [a| |s k IH|s r' k IH|s k IH|k IH|rq k IH|line k IH];
    intros Hp; simpl in *; auto; contradiction.
Qed.

Lemma new_Response_read_only (b : Body) (s : N) (h : Headers) :
  read_only (new_Response b s h).
Proof.
  unfold new_Response.
  destruct ((s <? 200) || (599 <? s)); [exact I|].
  destruct (null_body_status s && negb (body_is_null b)); exact I.
Qed.

Lemma prog_bind_read_only {A B : Type} (f : A -> Prog B) (p : Prog A) :
  read_only p -> (forall a, read_only (f a)) -> read_only (prog_bind f p).
Proof.
  intros Hp Hf.
  induction p as [a| |slug k IH|slug r k IH|slug k IH|k IH|rq k IH|line k IH];
    simpl in *; auto.
Qed.

Lemma checkAdminAuth_read_only (pw key : option string) :
  read_only (checkAdminAuth pw key).
Proof. unfold checkAdminAuth. destruct (negb (truthy pw)); exact I. Qed.

Lemma streamVideoHandler_read_only (req : Request) (id key : string) :
  read_only (streamVideoHandler req id key).
Proof.
  unfold streamVideoHandler. intros record. destruct record as [value|];
    [|apply new_Response_read_only].
  destruct (negb (String.eqb (link_key value) key)); [apply new_Response_read_only|].
  intros fetched. destruct fetched as [|up]; [exact I|].
  destruct (negb (up_ok up)); apply new_Response_read_only.
Qed.

Lemma downloadVideoHandler_read_only (req : Request) (id key : string) :
  read_only (downloadVideoHandler req id key).
Proof.
  unfold downloadVideoHandler. intros record. destruct record as [value|];
    [|apply new_Response_read_only].
  destruct (negb (String.eqb (link_key value) key)); [apply new_Response_read_only|].
  intros fetched. destruct fetched as [|up]; [exact I|].
  destruct (negb (up_ok up) || negb (bool_decide (is_Some (up_body up))));
    apply new_Response_read_only.
Qed.

Lemma adminPageHandler_read_only (pw : option string) (req : Request) :
  read_only (adminPageHandler pw req).
Proof.
  unfold adminPageHandler. destruct (negb (truthy pw)); [apply new_Response_read_only|].
  apply prog_bind_read_only; [apply checkAdminAuth_read_only|].
  intros authorised. destruct (negb authorised); [apply new_Response_read_only|].
  intros links. apply new_Response_read_only.
Qed.

(** What the delete handler does to one stored record. *)
Lemma deleteLinkHandler_effect
    (net : FetchRequest -> FetchOutcome) (st : Store) (req : Request)
    (pw : option string) (s : string) (r : LinkRecord) :
  st !! s = Some r ->
  store_after (run net (deleteLinkHandler pw req) st) !! s = Some r
  \/ (store_after (run net (deleteLinkHandler pw req) st) !! s = None
      /\ truthy pw = true
      /\ req_search_key req = pw
      /\ req_form req !! "id" = Some s).
Proof.
  intros Hs. unfold deleteLinkHandler, checkAdminAuth.
  destruct (truthy pw) eqn:Hpw; [|now left].
  cbn [negb]. destruct (bool_decide (req_search_key req = pw)) eqn:Hkey; [|now left].
  apply bool_decide_eq_true_1 in Hkey.
  destruct (req_form req !! "id") as [id|] eqn:Hid; [|now left].
  destruct id as [|c id]; [now left|].
  cbn. destruct (decide (String c id = s)) as [<-|Hne].
  - right. rewrite lookup_delete_eq. auto.
  - left. now rewrite lookup_delete_ne.
Qed.

(** X4.  A request handled on its own, from its first store access to its
    response with no other handler running in between, leaves a stored
    record either exactly as it was or deleted, and it is deleted only by a
    POST on [/delete] that presents the configured credential and names the
    record's slug.  So no single request changes the URL, key or filename of
    a stored link.  This is a statement about [run]; when the steps of two
    registrations interleave ([run_schedule]) the later write replaces the
    earlier record (the interleaved run given for claim C1). *)
Theorem stored_record_survives_or_is_deleted_by_admin
    (pw : option string) (net : FetchRequest -> FetchOutcome) (st : Store)
    (req : Request) (s : string) (r : LinkRecord) :
  st !! s = Some r ->
  store_after (run net (serve pw req) st) !! s = Some r
  \/ (store_after (run net (serve pw req) st) !! s = None
      /\ req_method req = POST
      /\ req_pathname req = "/delete"
      /\ truthy pw = true
      /\ req_search_key req = pw
      /\ req_form req !! "id" = Some s).
Proof.
  intros Hs. unfold serve.
  destruct (String.eqb (req_pathname req) "/" && method_eqb (req_method req) GET).
  { left. now rewrite run_read_only by apply new_Response_read_only. }
  destruct (String.eqb (req_pathname req) "/generate" && method_eqb (req_method req) POST).
  { left. now apply generateLinkHandler_keeps_records. }
  destruct (String.eqb (req_pathname req) "/admin" && method_eqb (req_method req) GET).
  { left. now rewrite run_read_only by apply adminPageHandler_read_only. }
  destruct (String.eqb (req_pathname req) "/delete" && method_eqb (req_method req) POST)
    eqn:Hroute.
  { apply andb_true_iff in Hroute as [Hpath Hmethod].
    apply String.eqb_eq in Hpath.
    destruct (deleteLinkHandler_effect net st req pw s r Hs) as [H|(H1 & H2 & H3 & H4)];
      [now left|].
    right. repeat split; auto. now destruct (req_method req). }
  left.
  destruct (pattern_exec "/stream/" (req_pathname req)) as [id|],
           (method_eqb (req_method req) GET),
           (pattern_exec "/download/" (req_pathname req)) as [id'|];
    try destruct (negb (truthy (req_search_key req)));
    rewrite run_read_only;
    first [exact Hs
          | apply new_Response_read_only
          | apply streamVideoHandler_read_only
          | apply downloadVideoHandler_read_only].
Qed.

Lemma stored_record_survives_or_is_deleted_by_admin_witness :
  store_after (run (always demo_full)
                 (serve (Some "master")
                    (demo_delete (Some "guess") {[ "id" := "clip-one" ]}))
                 demo_two_links) !! "clip-one" = Some demo_record
  \/ (store_after (run (always demo_full)
                     (serve (Some "master")
                        (demo_delete (Some "guess") {[ "id" := "clip-one" ]}))
                     demo_two_links) !! "clip-one" = None
      /\ req_method (demo_delete (Some "guess") {[ "id" := "clip-one" ]}) = POST
      /\ req_pathname (demo_delete (Some "guess") {[ "id" := "clip-one" ]}) = "/delete"
      /\ truthy (Some "master") = true
      /\ req_search_key (demo_delete (Some "guess") {[ "id" := "clip-one" ]}) = Some "master"
      /\ req_form (demo_delete (Some "guess") {[ "id" := "clip-one" ]}) !! "id"
         = Some "clip-one").
Proof.
  apply (stored_record_survives_or_is_deleted_by_admin (Some "master") (always demo_full)
           demo_two_links (demo_delete (Some "guess") {[ "id" := "clip-one" ]})
           "clip-one" demo_record).
  reflexivity.
Defined.

(** ** Which upstream requests the server makes *)

Lemma run_new_Response (net : FetchRequest -> FetchOutcome) (b : Body) (s : N)
    (h : Headers) (st : Store) :
  trace (run net (new_Response b s h) st) = []
  /\ store_after (run net (new_Response b s h) st) = st.
Proof.
  unfold new_Response.
  destruct ((s <? 200) || (599 <? s)); [split; reflexivity|].
  destruct (null_body_status s && negb (body_is_null b)); split; reflexivity.
Qed.

Lemma run_no_fetch {A : Type} (net : FetchRequest -> FetchOutcome) (p : Prog A)
    (st : Store) (rq : FetchRequest) :
  no_fetch p -> ~ In (EvFetch rq) (trace (run net p st)).
Proof.
  revert st. induction p as [a| |s k IH|s r' k IH|s k IH|k IH|rq' k IH|line k IH];
    intros st Hp Hin; simpl in *; try contradiction;
    destruct Hin as [E|Hin]; try discriminate; eapply IH; eauto.
Qed.

Lemma new_Response_no_fetch (b : Body) (s : N) (h : Headers) :
  no_fetch (new_Response b s h).
Proof.
  unfold new_Response.
  destruct ((s <? 200) || (599 <? s)); [exact I|].
  destruct (null_body_status s && negb (body_is_null b)); exact I.
Qed.

Lemma prog_bind_no_fetch {A B : Type} (f : A -> Prog B) (p : Prog A) :
  no_fetch p -> (forall a, no_fetch (f a)) -> no_fetch (prog_bind f p).
Proof.
  intros Hp Hf.
  induction p as [a| |slug k IH|slug r k IH|slug k IH|k IH|rq k IH|line k IH];
    simpl in *; auto.
Qed.

Lemma checkAdminAuth_no_fetch (pw key : option string) : no_fetch (checkAdminAuth pw key).
Proof. unfold checkAdminAuth. destruct (negb (truthy pw)); exact I. Qed.

Lemma adminPageHandler_no_fetch (pw : option string) (req : Request) :
  no_fetch (adminPageHandler pw req).
Proof.
  unfold adminPageHandler. destruct (negb (truthy pw)); [apply new_Response_no_fetch|].
  apply prog_bind_no_fetch; [apply checkAdminAuth_no_fetch|].
  intros authorised. destruct (negb authorised); [apply new_Response_no_fetch|].
  intros links. apply new_Response_no_fetch.
Qed.

Lemma deleteLinkHandler_no_fetch (pw : option string) (req : Request) :
  no_fetch (deleteLinkHandler pw req).
Proof.
  unfold deleteLinkHandler.
  apply prog_bind_no_fetch; [apply checkAdminAuth_no_fetch|].
  intros authorised. destruct (negb authorised); [apply new_Response_no_fetch|].
  destruct (truthy (req_form req !! "id")); exact I.
Qed.

(** A relay handler fetches only after the lookup found the slug and the
    key matched, and then the stored URL. *)
Lemma streamVideoHandler_fetches
    (net : FetchRequest -> FetchOutcome) (st : Store) (req : Request) (id key : string)
    (rq : FetchRequest) :
  In (EvFetch rq) (trace (run net (streamVideoHandler req id key) st)) ->
  exists r, st !! id = Some r /\ link_key r = key
            /\ fetch_url rq = link_url r /\ fetch_method rq = GET.
Proof.
  unfold streamVideoHandler. cbn [run]. destruct (st !! id) as [r|] eqn:Hr.
  2: { cbn. intros [H|[]]; discriminate. }
  destruct (String.eqb (link_key r) key) eqn:Hk; cbn [negb].
  2: { cbn. intros [H|[]]; discriminate. }
  apply String.eqb_eq in Hk. cbn [run]. unfold logged at 1 2 3. cbn [trace].
  intros [H|[H|[H|H]]]; try discriminate.
  - injection H as <-. exists r. auto.
  - exfalso. revert H.
    match goal with |- context [net ?q] => destruct (net q) as [msg|up] end;
      [intros []|].
    destruct (negb (up_ok up)); unfold text_response;
      rewrite (proj1 (run_new_Response _ _ _ _ _)); intros [].
Qed.

Lemma downloadVideoHandler_fetches
    (net : FetchRequest -> FetchOutcome) (st : Store) (req : Request) (id key : string)
    (rq : FetchRequest) :
  In (EvFetch rq) (trace (run net (downloadVideoHandler req id key) st)) ->
  exists r, st !! id = Some r /\ link_key r = key
            /\ fetch_url rq = link_url r /\ fetch_method rq = GET.
Proof.
  unfold downloadVideoHandler. cbn [run]. destruct (st !! id) as [r|] eqn:Hr.
  2: { cbn. intros [H|[]]; discriminate. }
  destruct (String.eqb (link_key r) key) eqn:Hk; cbn [negb].
  2: { cbn. intros [H|[]]; discriminate. }
  apply String.eqb_eq in Hk. cbn [run]. unfold logged at 1 2 3. cbn [trace].
  intros [H|[H|[H|H]]]; try discriminate.
  - injection H as <-. exists r. auto.
  - exfalso. revert H.
    match goal with |- context [net ?q] => destruct (net q) as [msg|up] end;
      [intros []|].
    destruct (negb (up_ok up) || negb (bool_decide (is_Some (up_body up))));
      unfold text_response; rewrite (proj1 (run_new_Response _ _ _ _ _)); intros [].
Qed.

(** The registration handler fetches at most once: the HEAD probe of the
    submitted URL, with no header. *)
Lemma generateLinkHandler_fetches
    (net : FetchRequest -> FetchOutcome) (st : Store) (req : Request) (rq : FetchRequest) :
  In (EvFetch rq) (trace (run net (generateLinkHandler req) st)) ->
  fetch_method rq = HEAD /\ fetch_headers rq = ∅
  /\ req_form req !! "url" = Some (fetch_url rq)
  /\ truthy (trim <$> req_form req !! "filename") = false.
Proof.
  unfold generateLinkHandler.
  destruct (req_form req !! "custom_id") as [custom_id|]; [|intros []].
  destruct (req_form req !! "url") as [url|] eqn:Hurl; [|intros []].
  destruct (negb (truthy (Some url)) || negb (truthy (req_form req !! "key"))
            || is_empty (slugify custom_id)); [intros []|].
  cbn [run]. destruct (st !! slugify custom_id); [cbn; intros [H|[]]; discriminate|].
  destruct (truthy (trim <$> req_form req !! "filename")).
  { cbn. intros [H|[H|[]]]; discriminate. }
  cbn [run]. unfold logged at 1 2 3. cbn [trace].
  intros [H|[H|[H|H]]]; try discriminate.
  - injection H as <-. cbn. auto.
  - exfalso. revert H.
    match goal with |- context [net ?q] => destruct (net q) as [msg|up] end;
      cbn; intros [H|[H|[]]]; discriminate.
Qed.

(** X5.  Every upstream request the server makes for an inbound request is
    one of two: a GET of the URL stored under the slug of a [/stream/] or
    [/download/] path, made only when the presented key is the stored key of
    that slug; or the header-less HEAD probe of the URL submitted to
    [/generate] with a blank filename.  In particular a relay request with a
    wrong key, and every admin or delete request, causes no upstream
    traffic. *)
Theorem upstream_requests_are_authorised
    (pw : option string) (net : FetchRequest -> FetchOutcome) (st : Store)
    (req : Request) (rq : FetchRequest) :
  In (EvFetch rq) (trace (run net (serve pw req) st)) ->
  (fetch_method rq = GET
   /\ req_method req = GET
   /\ exists (id key : string) (r : LinkRecord),
        (req_pathname req = "/stream/" ++ id \/ req_pathname req = "/download/" ++ id)
        /\ req_search_key req = Some key
        /\ st !! id = Some r /\ link_key r = key /\ fetch_url rq = link_url r)
  \/ (fetch_method rq = HEAD
      /\ req_method req = POST
      /\ req_pathname req = "/generate"
      /\ req_form req !! "url" = Some (fetch_url rq)
      /\ fetch_headers rq = ∅).
Proof.
  unfold serve.
  destruct (String.eqb (req_pathname req) "/" && method_eqb (req_method req) GET).
  { intros H. now apply run_no_fetch in H; [|apply new_Response_no_fetch]. }
  destruct (String.eqb (req_pathname req) "/generate" && method_eqb (req_method req) POST)
    eqn:Hgen.
  { intros H. apply generateLinkHandler_fetches in H as (H1 & H2 & H3 & _).
    apply andb_true_iff in Hgen as [Hpath Hmethod]. apply String.eqb_eq in Hpath.
    right. repeat split; auto. now destruct (req_method req). }
  destruct (String.eqb (req_pathname req) "/admin" && method_eqb (req_method req) GET).
  { intros H. now apply run_no_fetch in H; [|apply adminPageHandler_no_fetch]. }
  destruct (String.eqb (req_pathname req) "/delete" && method_eqb (req_method req) POST).
  { intros H. now apply run_no_fetch in H; [|apply deleteLinkHandler_no_fetch]. }
  assert (Hkey : forall k, negb (truthy (req_search_key req)) = false ->
                           default "" (req_search_key req) = k ->
                           req_search_key req = Some k).
  { intros k Ht <-. now destruct (req_search_key req). }
  destruct (pattern_exec "/stream/" (req_pathname req)) as [id|] eqn:Hs,
           (method_eqb (req_method req) GET) eqn:Hm,
           (pattern_exec "/download/" (req_pathname req)) as [id'|] eqn:Hd;
    try (destruct (negb (truthy (req_search_key req))) eqn:Ht);
    intros H;
    try (now apply run_no_fetch in H; [|apply new_Response_no_fetch]).
  all: assert (req_method req = GET) by (now destruct (req_method req)).
  all: left.
  all: first [apply streamVideoHandler_fetches in H as (r & Hr & Hk & Hu & Hg);
              apply pattern_exec_Some in Hs
             |apply downloadVideoHandler_fetches in H as (r & Hr & Hk & Hu & Hg);
              apply pattern_exec_Some in Hd].
  all: repeat split; auto; eexists _, _, r; repeat split; eauto.
Qed.

Lemma upstream_requests_are_authorised_witness :
  (fetch_method {| fetch_url := "https://ex.com/a.bin"; fetch_method := GET;
                   fetch_headers := ∅ |} = GET
   /\ req_method (demo_request GET "/download/clip-one") = GET
   /\ exists (id key : string) (r : LinkRecord),
        (req_pathname (demo_request GET "/download/clip-one") = "/stream/" ++ id
         \/ req_pathname (demo_request GET "/download/clip-one") = "/download/" ++ id)
        /\ req_search_key (demo_request GET "/download/clip-one") = Some key
        /\ demo_store !! id = Some r /\ link_key r = key
        /\ fetch_url {| fetch_url := "https://ex.com/a.bin"; fetch_method := GET;
                        fetch_headers := ∅ |} = link_url r)
  \/ (fetch_method {| fetch_url := "https://ex.com/a.bin"; fetch_method := GET;
                      fetch_headers := ∅ |} = HEAD
      /\ req_method (demo_request GET "/download/clip-one") = POST
      /\ req_pathname (demo_request GET "/download/clip-one") = "/generate"
      /\ req_form (demo_request GET "/download/clip-one") !! "url"
         = Some (fetch_url {| fetch_url := "https://ex.com/a.bin"; fetch_method := GET;
                              fetch_headers := ∅ |})
      /\ fetch_headers {| fetch_url := "https://ex.com/a.bin"; fetch_method := GET;
                          fetch_headers := ∅ |} = ∅).
Proof.
  apply (upstream_requests_are_authorised (Some "master") (always demo_full) demo_store
           (demo_request GET "/download/clip-one")).
  vm_compute. right. right. left. reflexivity.
Defined.

(** ** The router *)

Lemma strip_prefix_app (prefix rest : string) :
  strip_prefix prefix (prefix ++ rest) = Some rest.
Proof.
  induction prefix as [|a prefix IH]; simpl; [reflexivity|].
  now rewrite Ascii.eqb_refl.
Qed.

(** The pattern [prefix:id] matches exactly the paths made of the prefix
    and one non-empty segment without a slash. *)
Lemma pattern_exec_iff (prefix pathname id : string) :
  pattern_exec prefix pathname = Some id
  <-> pathname = prefix ++ id /\ id <> "" /\ has_slash id = false.
Proof.
  split.
  - intros H. split; [now apply pattern_exec_Some|].
    unfold pattern_exec in H.
    destruct (strip_prefix prefix pathname) as [r|]; [|discriminate].
    destruct (is_empty r || has_slash r) eqn:E; [discriminate|].
    injection H as <-. apply orb_false_iff in E as [E1 E2].
    split; [|exact E2]. intros ->. discriminate.
  - intros (-> & Hne & Hslash). unfold pattern_exec.
    now rewrite strip_prefix_app, (is_empty_false _ Hne), Hslash.
Qed.

(** X6.  A request that matches no route is answered 404 and touches
    nothing: any method other than GET and POST; a POST anywhere but
    [/generate] and [/delete]; a GET anywhere but [/], [/admin] and the two
    relay patterns (so [/download/], [/download/a/b] and [/stream] are not
    found). *)
Theorem unrouted_requests_are_not_found
    (pw : option string) (net : FetchRequest -> FetchOutcome) (st : Store) (req : Request) :
  let not_found :=
    run net (serve pw req) st =
      {| outcome := Returned route_not_found_response; store_after := st; trace := [] |} in
  (req_method req = HEAD \/ req_method req = OTHER -> not_found)
  /\ (req_method req = POST ->
      req_pathname req <> "/generate" -> req_pathname req <> "/delete" -> not_found)
  /\ (req_method req = GET ->
      req_pathname req <> "/" -> req_pathname req <> "/admin" ->
      (forall id, id <> "" -> has_slash id = false ->
                  req_pathname req <> "/stream/" ++ id
                  /\ req_pathname req <> "/download/" ++ id) ->
      not_found).
Proof.
  cbv zeta. split; [|split].
  - intros Hm. unfold serve.
    destruct (pattern_exec "/stream/" (req_pathname req)),
             (pattern_exec "/download/" (req_pathname req));
      destruct Hm as [-> | ->]; cbn [method_eqb]; rewrite !andb_false_r; reflexivity.
  - intros Hm Hg Hd. unfold serve. rewrite Hm. cbn [method_eqb].
    rewrite (eqb_neq_false _ _ Hg), (eqb_neq_false _ _ Hd), !andb_false_r.
    cbn [andb].
    destruct (pattern_exec "/stream/" (req_pathname req)),
             (pattern_exec "/download/" (req_pathname req)); reflexivity.
  - intros Hm Hh Ha Hnone. unfold serve. rewrite Hm. cbn [method_eqb].
    rewrite (eqb_neq_false _ _ Hh), (eqb_neq_false _ _ Ha), !andb_false_r.
    cbn [andb].
    destruct (pattern_exec "/stream/" (req_pathname req)) as [id|] eqn:Hs.
    { apply pattern_exec_iff in Hs as (Hp & Hne & Hsl).
      now destruct (Hnone id Hne Hsl) as [H _]. }
    destruct (pattern_exec "/download/" (req_pathname req)) as [id|] eqn:Hdl.
    { apply pattern_exec_iff in Hdl as (Hp & Hne & Hsl).
      now destruct (Hnone id Hne Hsl) as [_ H]. }
    reflexivity.
Qed.

Lemma unrouted_requests_are_not_found_witness :
  run (always demo_full) (serve (Some "master") (demo_request POST "/download/clip-one"))
      demo_store
  = {| outcome := Returned route_not_found_response; store_after := demo_store;
       trace := [] |}.
Proof.
  apply (proj1 (proj2 (unrouted_requests_are_not_found (Some "master") (always demo_full)
                         demo_store (demo_request POST "/download/clip-one"))));
    [reflexivity | discriminate | discriminate].
Defined.

(** ** Registration, continued *)

Lemma drop_while_all (p : ascii -> bool) (s : string) :
  all_chars p s = true -> drop_while p s = "".
Proof.
  induction s as [|c s IH]; simpl; [reflexivity|].
  intros H. apply andb_true_iff in H as [-> H]. auto.
Qed.

Lemma trim_all_space (s : string) : all_chars is_space s = true -> trim s = "".
Proof. intros H. unfold trim. now rewrite (drop_while_all _ _ H). Qed.

(** The registration handler once the form is valid and the slug is free. *)
Lemma valid_registration_run
    (net : FetchRequest -> FetchOutcome) (st : Store) (req : Request)
    (custom_id url key : string) :
  req_form req !! "custom_id" = Some custom_id ->
  req_form req !! "url" = Some url -> url <> "" ->
  req_form req !! "key" = Some key -> key <> "" ->
  slugify custom_id <> "" ->
  st !! slugify custom_id = None ->
  let slug := slugify custom_id in
  let persist finalFilename :=
    KvSet slug {| link_url := url; link_key := key; link_filename := finalFilename |}
      (serveHtmlResponse (PageGenerated slug finalFilename key (req_origin req)) 200) in
  run net (generateLinkHandler req) st =
    logged (EvKvGet slug)
      (run net
         (if truthy (trim <$> req_form req !! "filename")
          then persist (default "" (trim <$> req_form req !! "filename"))
          else
            Console (ConsoleLog ("Auto-detecting filename for: " ++ url))
              (FetchCall {| fetch_url := url; fetch_method := HEAD; fetch_headers := ∅ |}
                 (fun fetched =>
                    match fetched with
                    | FetchResolved response =>
                        let contentType :=
                          headers_get (up_headers response) "Content-Type" in
                        let finalFilename :=
                          slug ++ mapContentTypeToExtension contentType in
                        Console (ConsoleLog ("Detected Content-Type: "
                                             ++ show_nullable contentType
                                             ++ ", Assigned Filename: " ++ finalFilename))
                          (persist finalFilename)
                    | FetchRejected message =>
                        Console (ConsoleError ("HEAD request failed: " ++ message))
                          (persist (slug ++ ".mp4"))
                    end))) st).
Proof.
  intros Hc Hu Hune Hk Hkne Hsne Hst. cbv zeta.
  unfold generateLinkHandler. rewrite Hc, Hu, Hk.
  rewrite (truthy_Some_nonempty _ Hune), (truthy_Some_nonempty _ Hkne),
    (is_empty_false _ Hsne).
  cbn [negb orb run]. rewrite Hst. reflexivity.
Qed.

(** X7.  When the form carries a filename that is not blank, the
    registration stores it with the surrounding whitespace removed and sends
    no probe: the lookup and the write are its only effects.  When the
    filename is absent or blank, the HEAD probe of the submitted URL is
    sent. *)
Theorem filename_override_is_trimmed_and_skips_probe
    (net : FetchRequest -> FetchOutcome) (st : Store) (req : Request)
    (custom_id url key : string) :
  req_form req !! "custom_id" = Some custom_id ->
  req_form req !! "url" = Some url -> url <> "" ->
  req_form req !! "key" = Some key -> key <> "" ->
  slugify custom_id <> "" ->
  st !! slugify custom_id = None ->
  (forall filename : string,
     req_form req !! "filename" = Some filename -> trim filename <> "" ->
     let stored := {| link_url := url; link_key := key; link_filename := trim filename |} in
     run net (generateLinkHandler req) st =
       {| outcome := Returned (generated_response (slugify custom_id) (trim filename) key
                                 (req_origin req));
          store_after := <[slugify custom_id := stored]> st;
          trace := [EvKvGet (slugify custom_id); EvKvSet (slugify custom_id) stored] |})
  /\ (req_form req !! "filename" = None
      \/ (exists filename, req_form req !! "filename" = Some filename
                           /\ all_chars is_space filename = true) ->
      In (EvFetch {| fetch_url := url; fetch_method := HEAD; fetch_headers := ∅ |})
         (trace (run net (generateLinkHandler req) st))).
Proof.
  intros Hc Hu Hune Hk Hkne Hsne Hst.
  pose proof (valid_registration_run net st req custom_id url key Hc Hu Hune Hk Hkne
                Hsne Hst) as Hrun. cbv zeta in Hrun.
  split.
  - intros filename Hf Hfne. cbv zeta. rewrite Hrun, Hf. cbn [fmap option_fmap option_map].
    rewrite (truthy_Some_nonempty _ Hfne). reflexivity.
  - intros Hblank. rewrite Hrun.
    assert (Ht : truthy (trim <$> req_form req !! "filename") = false).
    { destruct Hblank as [-> | (filename & -> & Hall)]; [reflexivity|].
      cbn [fmap option_fmap option_map]. now rewrite (trim_all_space _ Hall). }
    rewrite Ht. cbn. right. right. now left.
Qed.

Lemma filename_override_is_trimmed_and_skips_probe_witness :
  run (always demo_full) (generateLinkHandler padded_registration) ∅ =
    {| outcome := Returned (generated_response "clip-one" "clip.mp4" "s3cret"
                              "https://links.example");
       store_after := {[ "clip-one" := first_record_trimmed ]};
       trace := [EvKvGet "clip-one"; EvKvSet "clip-one" first_record_trimmed] |}.
Proof.
  apply (proj1 (filename_override_is_trimmed_and_skips_probe (always demo_full) ∅
                  padded_registration "Clip One" "https://ex.com/a.bin" "s3cret"
                  eq_refl eq_refl ltac:(discriminate) eq_refl ltac:(discriminate)
                  ltac:(discriminate) eq_refl)
           "  clip.mp4 " eq_refl ltac:(discriminate)).
Defined.

Lemma resolver_known_extension (contentType : option string) :
  In (mapContentTypeToExtension contentType) known_extensions.
Proof.
  unfold mapContentTypeToExtension, known_extensions.
  destruct contentType as [ct|]; [|simpl; tauto].
  destruct (is_empty ct); [simpl; tauto|]. cbv zeta.
  repeat match goal with |- context [String.eqb ?a ?b] => destruct (String.eqb a b) end;
    simpl; tauto.
Qed.

Lemma append_nonempty (a b : string) : a <> "" -> a ++ b <> "".
Proof. destruct a; [contradiction|discriminate]. Qed.

(** X8.  Every record the registration handler writes has a non-empty URL,
    key and filename; the URL and key are the submitted ones, the slug is the
    normalised label and was free when looked up, and the filename is either
    the submitted filename without its surrounding whitespace or the slug
    followed by one of [.mp4], [.mkv], [.webm], [.mov], [.bin]. *)
Theorem persisted_record_is_well_formed
    (net : FetchRequest -> FetchOutcome) (st : Store) (req : Request)
    (slug : string) (r : LinkRecord) :
  In (EvKvSet slug r) (trace (run net (generateLinkHandler req) st)) ->
  link_url r <> "" /\ link_key r <> "" /\ link_filename r <> ""
  /\ req_form req !! "url" = Some (link_url r)
  /\ req_form req !! "key" = Some (link_key r)
  /\ (exists custom_id, req_form req !! "custom_id" = Some custom_id
                        /\ slug = slugify custom_id)
  /\ st !! slug = None
  /\ ((exists filename, req_form req !! "filename" = Some filename
                        /\ link_filename r = trim filename)
      \/ (exists ext, In ext known_extensions /\ link_filename r = slug ++ ext)).
Proof.
  unfold generateLinkHandler.
  destruct (req_form req !! "custom_id") as [custom_id|] eqn:Hc; [|intros []].
  destruct (req_form req !! "url") as [[|a u]|] eqn:Hu; try (intros []).
  destruct (req_form req !! "key") as [[|b k]|] eqn:Hk; try (intros []).
  cbn [truthy is_empty negb orb].
  destruct (is_empty (slugify custom_id)) eqn:Hslug; [intros []|].
  assert (Hsne : slugify custom_id <> "") by (intros E; rewrite E in Hslug; discriminate).
  cbn [run]. destruct (st !! slugify custom_id) eqn:Hst;
    [cbn; intros [H|[]]; discriminate|].
  assert (Hext : forall ext, In ext known_extensions ->
            forall s' r', EvKvSet (slugify custom_id)
                            {| link_url := String a u; link_key := String b k;
                               link_filename := slugify custom_id ++ ext |}
                          = EvKvSet s' r' ->
            link_url r' <> "" /\ link_key r' <> "" /\ link_filename r' <> ""
            /\ Some (String a u) = Some (link_url r')
            /\ Some (String b k) = Some (link_key r')
            /\ (exists c, Some custom_id = Some c /\ s' = slugify c)
            /\ st !! s' = None
            /\ ((exists filename, req_form req !! "filename" = Some filename
                                  /\ link_filename r' = trim filename)
                \/ (exists e, In e known_extensions /\ link_filename r' = s' ++ e))).
  { intros ext Hin s' r' [= <- <-]. cbn [link_url link_key link_filename].
    repeat split; try discriminate; eauto using append_nonempty. }
  destruct (req_form req !! "filename") as [filename|] eqn:Hf; cbn [fmap option_fmap option_map].
  - destruct (trim filename) as [|c f] eqn:Ht.
    + cbn [truthy is_empty negb run]. unfold logged at 1 2 3. cbn [trace].
      match goal with |- context [net ?q] => destruct (net q) as [msg|up] end;
        cbn; intros [H|[H|[H|[H|[H|[]]]]]]; try discriminate;
        (eapply Hext; [|exact H]); [simpl; tauto|apply resolver_known_extension].
    + cbn. intros [H|[H|[]]]; try discriminate.
      injection H as <- <-. cbn [link_url link_key link_filename].
      repeat split; try discriminate; eauto.
  - cbn [truthy run]. unfold logged at 1 2 3. cbn [trace].
    match goal with |- context [net ?q] => destruct (net q) as [msg|up] end;
      cbn; intros [H|[H|[H|[H|[H|[]]]]]]; try discriminate;
      (eapply Hext; [|exact H]); [simpl; tauto|apply resolver_known_extension].
Qed.

Lemma persisted_record_is_well_formed_witness :
  link_url first_record_trimmed <> "" /\ link_key first_record_trimmed <> ""
  /\ link_filename first_record_trimmed <> ""
  /\ req_form padded_registration !! "url" = Some (link_url first_record_trimmed)
  /\ req_form padded_registration !! "key" = Some (link_key first_record_trimmed)
  /\ (exists custom_id, req_form padded_registration !! "custom_id" = Some custom_id
                        /\ "clip-one" = slugify custom_id)
  /\ (∅ : Store) !! "clip-one" = None
  /\ ((exists filename, req_form padded_registration !! "filename" = Some filename
                        /\ link_filename first_record_trimmed = trim filename)
      \/ (exists ext, In ext known_extensions
                      /\ link_filename first_record_trimmed = "clip-one" ++ ext)).
Proof.
  apply (persisted_record_is_well_formed (always demo_full) ∅ padded_registration
           "clip-one" first_record_trimmed).
  vm_compute. right. left. reflexivity.
Defined.

(** A valid registration of a free slug always leaves a record under the
    slug, with the submitted URL and key, whatever the probe does. *)
Lemma valid_registration_stores
    (net : FetchRequest -> FetchOutcome) (st : Store) (req : Request)
    (custom_id url key : string) :
  req_form req !! "custom_id" = Some custom_id ->
  req_form req !! "url" = Some url -> url <> "" ->
  req_form req !! "key" = Some key -> key <> "" ->
  slugify custom_id <> "" ->
  st !! slugify custom_id = None ->
  exists finalFilename,
    store_after (run net (generateLinkHandler req) st)
    = <[slugify custom_id :=
          {| link_url := url; link_key := key; link_filename := finalFilename |}]> st.
Proof.
  intros Hc Hu Hune Hk Hkne Hsne Hst.
  rewrite (valid_registration_run net st req custom_id url key Hc Hu Hune Hk Hkne Hsne Hst).
  destruct (truthy (trim <$> req_form req !! "filename")).
  - eexists. reflexivity.
  - cbn [run logged store_after].
    match goal with |- context [net ?q] => destruct (net q) as [msg|up] end;
      eexists; reflexivity.
Qed.

Lemma taken_slug_run
    (net : FetchRequest -> FetchOutcome) (st : Store) (req : Request)
    (custom_id url key : string) (r : LinkRecord) :
  req_form req !! "custom_id" = Some custom_id ->
  req_form req !! "url" = Some url -> url <> "" ->
  req_form req !! "key" = Some key -> key <> "" ->
  slugify custom_id <> "" ->
  st !! slugify custom_id = Some r ->
  run net (generateLinkHandler req) st =
    {| outcome := Returned (slug_taken_response (slugify custom_id));
       store_after := st; trace := [EvKvGet (slugify custom_id)] |}.
Proof.
  intros Hc Hu Hune Hk Hkne Hsne Hst.
  unfold generateLinkHandler. rewrite Hc, Hu, Hk.
  rewrite (truthy_Some_nonempty _ Hune), (truthy_Some_nonempty _ Hkne),
    (is_empty_false _ Hsne).
  cbn [negb orb run]. rewrite Hst. reflexivity.
Qed.

(** X9.  Two valid registrations handled one after the other, whose labels
    normalise to the same free slug: the first one stores its URL and key
    under the slug whatever its probe does, and the second one is answered
    409 after the lookup alone, the first record staying in place. *)
Theorem second_registration_of_a_slug_is_refused
    (net net' : FetchRequest -> FetchOutcome) (st : Store) (first second : Request)
    (custom_id url key custom_id' url' key' : string) :
  req_form first !! "custom_id" = Some custom_id ->
  req_form first !! "url" = Some url -> url <> "" ->
  req_form first !! "key" = Some key -> key <> "" ->
  req_form second !! "custom_id" = Some custom_id' ->
  req_form second !! "url" = Some url' -> url' <> "" ->
  req_form second !! "key" = Some key' -> key' <> "" ->
  slugify custom_id <> "" ->
  slugify custom_id' = slugify custom_id ->
  st !! slugify custom_id = None ->
  let st1 := store_after (run net (generateLinkHandler first) st) in
  exists r : LinkRecord,
    st1 !! slugify custom_id = Some r
    /\ link_url r = url /\ link_key r = key
    /\ run net' (generateLinkHandler second) st1 =
         {| outcome := Returned (slug_taken_response (slugify custom_id));
            store_after := st1; trace := [EvKvGet (slugify custom_id)] |}.
Proof.
  intros Hc Hu Hune Hk Hkne Hc' Hu' Hune' Hk' Hkne' Hsne Hsame Hst. cbv zeta.
  destruct (valid_registration_stores net st first custom_id url key Hc Hu Hune Hk Hkne
              Hsne Hst) as [finalFilename ->].
  eexists. split; [apply lookup_insert_eq|]. split; [reflexivity|]. split; [reflexivity|].
  rewrite <- Hsame.
  eapply taken_slug_run; eauto.
  - now rewrite Hsame.
  - rewrite Hsame. apply lookup_insert_eq.
Qed.

Lemma second_registration_of_a_slug_is_refused_witness :
  exists r : LinkRecord,
    store_after (run (always demo_full) (generateLinkHandler first_registration) ∅)
      !! "clip-one" = Some r
    /\ link_url r = "https://ex.com/a.bin" /\ link_key r = "s3cret"
    /\ outcome (run (always demo_full) (generateLinkHandler second_registration)
                  (store_after (run (always demo_full)
                                  (generateLinkHandler first_registration) ∅)))
       = Returned (slug_taken_response "clip-one").
Proof.
  destruct (second_registration_of_a_slug_is_refused (always demo_full) (always demo_full)
              ∅ first_registration second_registration
              "Clip One" "https://ex.com/a.bin" "s3cret"
              "clip-one!" "https://ex.com/b.bin" "other"
              eq_refl eq_refl ltac:(discriminate) eq_refl ltac:(discriminate)
              eq_refl eq_refl ltac:(discriminate) eq_refl ltac:(discriminate)
              ltac:(discriminate) eq_refl eq_refl)
    as (r & Hr & Hu & Hk & Hrun).
  exists r. split; [exact Hr|]. split; [exact Hu|]. split; [exact Hk|].
  rewrite Hrun. reflexivity.
Defined.

(** ** From registration to relay *)

Lemma slug_char_not_slash (c : ascii) :
  is_slug_alnum c || is_hyphen c = true -> (code c =? 47) = false.
Proof.
  destruct c as [[] [] [] [] [] [] [] []]; vm_compute; intros H;
    first [reflexivity | discriminate H].
Qed.

Lemma url_safe_no_slash (s : string) : url_safe s = true -> s <> "" /\ has_slash s = false.
Proof.
  unfold url_safe. intros H.
  repeat (apply andb_true_iff in H as [H ?]).
  split; [intros ->; discriminate|].
  match goal with Ha : all_chars _ s = true |- _ => revert Ha end. clear.
  induction s as [|c s IH]; simpl; [reflexivity|].
  intros Ha. apply andb_true_iff in Ha as [Hc Ha].
  now rewrite (slug_char_not_slash c Hc), IH.
Qed.

(** Both links shown on the result page route back to their handler. *)
Lemma generated_links_route (custom_id : string) :
  slugify custom_id <> "" ->
  pattern_exec "/download/" ("/download/" ++ slugify custom_id) = Some (slugify custom_id)
  /\ pattern_exec "/stream/" ("/stream/" ++ slugify custom_id) = Some (slugify custom_id).
Proof.
  intros Hne. destruct (url_safe_no_slash _ (slugify_url_safe _ Hne)) as [H1 H2].
  split; apply pattern_exec_iff; auto.
Qed.

Lemma download_success_outcome
    (net : FetchRequest -> FetchOutcome) (st : Store) (req : Request) (id : string)
    (r : LinkRecord) (up : UpstreamResponse) (bytes : string) :
  st !! id = Some r ->
  net {| fetch_url := link_url r; fetch_method := GET; fetch_headers := ∅ |}
    = FetchResolved up ->
  up_ok up = true -> up_body up = Some bytes ->
  exists resp, outcome (run net (downloadVideoHandler req id (link_key r)) st) = Returned resp
               /\ status resp = 200 /\ body resp = BodyUpstream (Some bytes)
               /\ headers_get (headers resp) "Content-Disposition"
                  = Some (attachment_disposition (link_filename r)).
Proof.
  intros Hst Hnet Hok Hbody.
  unfold downloadVideoHandler. cbn [run]. rewrite Hst. cbn [run].
  rewrite String.eqb_refl. cbn [negb run]. rewrite Hnet, Hok, Hbody.
  rewrite replace_each_fallback. fold (attachment_disposition (link_filename r)).
  destruct (truthy (headers_get (up_headers up) "Content-Length"));
    eexists; (split; [reflexivity|]); repeat split; reflexivity.
Qed.

(** X10.  After a valid registration of a free slug, a GET on
    [/download/<slug>] that presents the registered key passes the router,
    the lookup and the key check and fetches the registered URL; when that
    fetch succeeds with a body, the answer is 200 with that body.  The same
    request with any other non-empty key is answered 403. *)
Theorem registered_link_downloads
    (pw : option string) (net net' : FetchRequest -> FetchOutcome) (st : Store)
    (registration get : Request) (custom_id url key : string)
    (up : UpstreamResponse) (bytes : string) :
  req_form registration !! "custom_id" = Some custom_id ->
  req_form registration !! "url" = Some url -> url <> "" ->
  req_form registration !! "key" = Some key -> key <> "" ->
  slugify custom_id <> "" ->
  st !! slugify custom_id = None ->
  req_method get = GET ->
  req_pathname get = "/download/" ++ slugify custom_id ->
  let st1 := store_after (run net (generateLinkHandler registration) st) in
  (req_search_key get = Some key ->
   net' {| fetch_url := url; fetch_method := GET; fetch_headers := ∅ |}
     = FetchResolved up ->
   up_ok up = true -> up_body up = Some bytes ->
   exists resp, outcome (run net' (serve pw get) st1) = Returned resp
                /\ status resp = 200 /\ body resp = BodyUpstream (Some bytes))
  /\ (forall other, req_search_key get = Some other -> other <> "" -> other <> key ->
      outcome (run net' (serve pw get) st1) = Returned forbidden_response).
Proof.
  intros Hc Hu Hune Hk Hkne Hsne Hst Hm Hp. cbv zeta.
  destruct (valid_registration_stores net st registration custom_id url key
              Hc Hu Hune Hk Hkne Hsne Hst) as [finalFilename ->].
  set (r := {| link_url := url; link_key := key; link_filename := finalFilename |}).
  assert (Hroute : pattern_exec "/download/" (req_pathname get) = Some (slugify custom_id))
    by (rewrite Hp; apply (generated_links_route _ Hsne)).
  rewrite (serve_download_route pw get _ Hm Hroute).
  split.
  - intros Hkey Hnet Hok Hbody. rewrite Hkey, (truthy_Some_true _ Hkne).
    cbn [default from_option id].
    destruct (download_success_outcome net' (<[slugify custom_id := r]> st) get
                (slugify custom_id) r up bytes (lookup_insert_eq _ _ _) Hnet Hok Hbody)
      as (resp & H1 & H2 & H3 & _).
    exists resp. auto.
  - intros other Hkey Hone Hdiff. rewrite Hkey, (truthy_Some_true _ Hone).
    cbn [default from_option id].
    destruct (relay_wrong_key net' (<[slugify custom_id := r]> st) get
                (slugify custom_id) other r (lookup_insert_eq _ _ _) (not_eq_sym Hdiff))
      as [_ ->].
    reflexivity.
Qed.

Lemma registered_link_downloads_witness :
  exists resp,
    outcome (run (always demo_full)
               (serve (Some "master") (demo_request GET "/download/clip-one"))
               (store_after (run (always demo_full)
                               (generateLinkHandler first_registration) ∅)))
    = Returned resp
    /\ status resp = 200 /\ body resp = BodyUpstream (Some "hello").
Proof.
  apply (proj1 (registered_link_downloads (Some "master") (always demo_full)
                  (always demo_full) ∅ first_registration
                  (demo_request GET "/download/clip-one")
                  "Clip One" "https://ex.com/a.bin" "s3cret" demo_full "hello"
                  eq_refl eq_refl ltac:(discriminate) eq_refl ltac:(discriminate)
                  ltac:(discriminate) eq_refl eq_refl eq_refl));
    reflexivity.
Defined.

(** ** Relay: when the upstream does not deliver *)

Lemma status_300_599 (s : N) :
  300 <= s <= 599 -> s <> 304 ->
  ((200 <=? s) && (s <=? 299) = false)
  /\ ((s <? 200) || (599 <? s) = false)
  /\ null_body_status s = false.
Proof.
  intros [H1 H2] H3. repeat split.
  - apply andb_false_iff. right. apply N.leb_gt. lia.
  - apply orb_false_iff. split; apply N.ltb_ge; lia.
  - unfold null_body_status.
    repeat (apply orb_false_iff; split); apply N.eqb_neq; lia.
Qed.

(** X11.  When the key matches and the upstream answers with a redirect or
    error status (300..599, 304 apart), both relay handlers answer with that
    same status and a fixed plain-text body: neither the upstream body nor
    any upstream header is passed on, and the store is unchanged. *)
Theorem upstream_error_status_is_propagated
    (net : FetchRequest -> FetchOutcome) (st : Store) (req : Request)
    (id : string) (r : LinkRecord) (up : UpstreamResponse) :
  st !! id = Some r ->
  (forall rq, fetch_url rq = link_url r -> net rq = FetchResolved up) ->
  300 <= up_status up <= 599 -> up_status up <> 304 ->
  (outcome (run net (streamVideoHandler req id (link_key r)) st)
   = Returned (upstream_failed_response (up_status up))
   /\ store_after (run net (streamVideoHandler req id (link_key r)) st) = st)
  /\ (outcome (run net (downloadVideoHandler req id (link_key r)) st)
      = Returned (upstream_failed_response (up_status up))
      /\ store_after (run net (downloadVideoHandler req id (link_key r)) st) = st).
Proof.
  intros Hst Hnet Hrange H304.
  destruct (status_300_599 _ Hrange H304) as (Hok & Hin & Hnull).
  split; (split; [|apply run_read_only;
                   first [apply streamVideoHandler_read_only
                         |apply downloadVideoHandler_read_only]]).
  - unfold streamVideoHandler. cbn [run]. rewrite Hst. cbn [run].
    rewrite String.eqb_refl. cbn [negb run].
    match goal with |- context [net ?q] => rewrite (Hnet q eq_refl) end.
    unfold up_ok. rewrite Hok. cbn [negb]. unfold text_response, new_Response.
    rewrite Hin, Hnull. reflexivity.
  - unfold downloadVideoHandler. cbn [run]. rewrite Hst. cbn [run].
    rewrite String.eqb_refl. cbn [negb run].
    match goal with |- context [net ?q] => rewrite (Hnet q eq_refl) end.
    unfold up_ok. rewrite Hok. cbn [negb orb]. unfold text_response, new_Response.
    rewrite Hin, Hnull. reflexivity.
Qed.

Lemma upstream_error_status_is_propagated_witness :
  outcome (run (always demo_gone)
             (streamVideoHandler demo_range_get "clip-one" "s3cret") demo_store)
  = Returned (upstream_failed_response 410)
  /\ outcome (run (always demo_gone)
                (downloadVideoHandler (demo_request GET "/download/clip-one")
                   "clip-one" "s3cret") demo_store)
     = Returned (upstream_failed_response 410).
Proof.
  assert (Hrange : 300 <= up_status demo_gone <= 599) by (vm_compute; split; discriminate).
  assert (H304 : up_status demo_gone <> 304) by discriminate.
  split.
  - apply (proj1 (upstream_error_status_is_propagated (always demo_gone) demo_store
                    demo_range_get "clip-one" demo_record demo_gone eq_refl
                    (fun _ _ => eq_refl) Hrange H304)).
  - apply (proj2 (upstream_error_status_is_propagated (always demo_gone) demo_store
                    (demo_request GET "/download/clip-one") "clip-one" demo_record
                    demo_gone eq_refl (fun _ _ => eq_refl) Hrange H304)).
Defined.

(** X12.  When the key matches and the upstream fetch is rejected (network
    error), both relay handlers throw: there is no try/catch around the
    relay fetch, so the handler produces no response of its own.  The
    download handler also throws when the upstream succeeds with status 204
    or 205 and no body, because it then builds its failure text on a status
    that admits no body.  The store is unchanged in each case. *)
Theorem relay_throws_when_upstream_is_unusable
    (net : FetchRequest -> FetchOutcome) (st : Store) (req : Request)
    (id : string) (r : LinkRecord) :
  st !! id = Some r ->
  ((forall rq, fetch_url rq = link_url r -> exists message, net rq = FetchRejected message) ->
   outcome (run net (streamVideoHandler req id (link_key r)) st) = Threw
   /\ store_after (run net (streamVideoHandler req id (link_key r)) st) = st
   /\ outcome (run net (downloadVideoHandler req id (link_key r)) st) = Threw
   /\ store_after (run net (downloadVideoHandler req id (link_key r)) st) = st)
  /\ (forall up : UpstreamResponse,
        (forall rq, fetch_url rq = link_url r -> net rq = FetchResolved up) ->
        up_status up = 204 \/ up_status up = 205 -> up_body up = None ->
        outcome (run net (downloadVideoHandler req id (link_key r)) st) = Threw
        /\ store_after (run net (downloadVideoHandler req id (link_key r)) st) = st).
Proof.
  intros Hst. split.
  - intros Hnet.
    split; [|split; [apply run_read_only, streamVideoHandler_read_only|
             split; [|apply run_read_only, downloadVideoHandler_read_only]]].
    + unfold streamVideoHandler. cbn [run]. rewrite Hst. cbn [run].
      rewrite String.eqb_refl. cbn [negb run].
      match goal with |- context [net ?q] => destruct (Hnet q eq_refl) as [msg ->] end.
      reflexivity.
    + unfold downloadVideoHandler. cbn [run]. rewrite Hst. cbn [run].
      rewrite String.eqb_refl. cbn [negb run].
      match goal with |- context [net ?q] => destruct (Hnet q eq_refl) as [msg ->] end.
      reflexivity.
  - intros up Hnet Hstatus Hbody.
    split; [|apply run_read_only, downloadVideoHandler_read_only].
    unfold downloadVideoHandler. cbn [run]. rewrite Hst. cbn [run].
    rewrite String.eqb_refl. cbn [negb run].
    match goal with |- context [net ?q] => rewrite (Hnet q eq_refl) end.
    rewrite Hbody. unfold up_ok. destruct Hstatus as [-> | ->]; reflexivity.
Qed.

Lemma relay_throws_when_upstream_is_unusable_witness :
  outcome (run (always demo_no_content)
             (downloadVideoHandler (demo_request GET "/download/clip-one")
                "clip-one" "s3cret") demo_store) = Threw
  /\ store_after (run (always demo_no_content)
                    (downloadVideoHandler (demo_request GET "/download/clip-one")
                       "clip-one" "s3cret") demo_store) = demo_store.
Proof.
  apply (proj2 (relay_throws_when_upstream_is_unusable (always demo_no_content) demo_store
                  (demo_request GET "/download/clip-one") "clip-one" demo_record eq_refl)
           demo_no_content (fun _ _ => eq_refl) (or_introl eq_refl) eq_refl).
Defined.

(** ** Which labels give which slug *)

Lemma lower_char_alnum (c : ascii) : is_slug_alnum (lower_char c) = is_ascii_alnum c.
Proof. destruct c as [[] [] [] [] [] [] [] []]; reflexivity. Qed.

Lemma all_chars_map (p : ascii -> bool) (f : ascii -> ascii) (s : string) :
  all_chars p (map_chars f s) = all_chars (fun c => p (f c)) s.
Proof. induction s as [|c s IH]; simpl; [reflexivity|now rewrite IH]. Qed.

Lemma all_chars_ext (p q : ascii -> bool) (s : string) :
  (forall c, p c = q c) -> all_chars p s = all_chars q s.
Proof. intros H. induction s as [|c s IH]; simpl; [reflexivity|now rewrite H, IH]. Qed.

Lemma filter_runs_sep (b : bool) (t : string) :
  filter_chars is_slug_alnum (runs is_sep "-" b t) = filter_chars is_slug_alnum t.
Proof.
  revert b. induction t as [|c t IH]; intros b; [reflexivity|].
  char_class c; cbn [replace_runs_from filter_chars]; rewrite Hsep, Halnum.
  - cbn [filter_chars]. now rewrite Halnum, IH.
  - destruct b; simpl; apply IH.
  - destruct b; simpl; apply IH.
  - destruct b; simpl; apply IH.
Qed.

Lemma filter_strip_hyphens (s : string) :
  filter_chars is_slug_alnum (strip_end is_hyphen s) = filter_chars is_slug_alnum s.
Proof.
  induction s as [|c s IH]; [reflexivity|].
  cbn [strip_end]. destruct (is_hyphen c && is_empty (strip_end is_hyphen s)) eqn:E.
  - apply andb_true_iff in E as [Hc He].
    destruct (strip_end is_hyphen s); [|discriminate].
    cbn [filter_chars] in *. rewrite <- IH.
    char_class c; try congruence. now rewrite Halnum.
  - cbn [filter_chars]. now rewrite IH.
Qed.

Lemma filter_empty_iff (s : string) :
  filter_chars is_slug_alnum s = "" <-> all_chars is_sep s = true.
Proof.
  unfold is_sep. induction s as [|c s IH]; simpl; [tauto|].
  destruct (is_slug_alnum c); simpl; [split; discriminate|exact IH].
Qed.

Lemma runs_sep_all (s : string) :
  all_chars is_sep s = true -> forall t, runs is_sep "-" true (s ++ t) = runs is_sep "-" true t.
Proof.
  intros H t. induction s as [|c s IH]; [reflexivity|].
  cbn [all_chars] in H. apply andb_true_iff in H as [Hc H].
  simpl. rewrite Hc. auto.
Qed.

Lemma strip_end_length (p : ascii -> bool) (s : string) :
  (String.length (strip_end p s) <= String.length s)%nat.
Proof.
  induction s as [|c s IH]; simpl; [lia|].
  destruct (p c && is_empty (strip_end p s)); simpl; lia.
Qed.

Lemma runs_sep_length (b : bool) (t : string) :
  (String.length (runs is_sep "-" b t) <= String.length t)%nat.
Proof.
  revert b. induction t as [|c t IH]; intros b; simpl; [lia|].
  pose proof (IH true). pose proof (IH false).
  destruct (is_sep c); [destruct b|]; simpl; lia.
Qed.

(** X13.  For a label whose characters are code units below 256 (the
    strings of this development): the letters and digits of its slug are
    exactly the ASCII letters and digits of the label, lower-cased and in
    order: none is lost, none is added.  So such a label normalises to the
    empty slug (and is refused) exactly when it contains no ASCII letter or
    digit, and its slug is never longer than the label.  Characters from
    U+0100 on are outside this statement: lower-casing sends U+212A to [k]
    and U+0130 to [i] followed by U+0307, which adds a letter and can
    lengthen the string. *)
Theorem slug_keeps_letters_and_digits (label : string) :
  filter_chars is_slug_alnum (slugify label)
  = toLowerCase (filter_chars is_ascii_alnum label)
  /\ (slugify label = "" <-> all_chars (fun c => negb (is_ascii_alnum c)) label = true)
  /\ (String.length (slugify label) <= String.length label)%nat.
Proof.
  rewrite slugify_canonical. unfold canonical_slug.
  assert (Hfilter : filter_chars is_slug_alnum
                      (strip_end is_hyphen (runs is_sep "-" true (toLowerCase label)))
                    = filter_chars is_slug_alnum (toLowerCase label))
    by now rewrite filter_strip_hyphens, filter_runs_sep.
  assert (Hsep : all_chars is_sep (toLowerCase label)
                 = all_chars (fun c => negb (is_ascii_alnum c)) label).
  { unfold toLowerCase. rewrite all_chars_map. apply all_chars_ext.
    intros c. unfold is_sep. now rewrite lower_char_alnum. }
  split; [|split].
  - rewrite Hfilter. unfold toLowerCase. clear.
    induction label as [|c s IH]; [reflexivity|].
    cbn [map_chars filter_chars]. rewrite lower_char_alnum.
    destruct (is_ascii_alnum c); cbn [map_chars]; now rewrite IH.
  - rewrite <- Hsep. split.
    + intros E. apply filter_empty_iff. rewrite <- Hfilter, E. reflexivity.
    + intros Hall.
      pose proof (runs_sep_all _ Hall "") as Hruns.
      replace (toLowerCase label ++ "") with (toLowerCase label) in Hruns
        by (generalize (toLowerCase label); intros s;
            induction s as [|c s IH]; simpl; [reflexivity|now rewrite <- IH]).
      now rewrite Hruns.
  - pose proof (strip_end_length is_hyphen (runs is_sep "-" true (toLowerCase label))).
    pose proof (runs_sep_length true (toLowerCase label)).
    unfold toLowerCase in *. rewrite map_chars_length in *. lia.
Qed.

Lemma map_chars_app (f : ascii -> ascii) (a b : string) :
  map_chars f (a ++ b) = map_chars f a ++ map_chars f b.
Proof. induction a as [|c a IH]; simpl; [reflexivity|now rewrite IH]. Qed.

Lemma lowered_separators (s : string) :
  all_chars (fun c => negb (is_ascii_alnum c)) s = true ->
  all_chars is_sep (toLowerCase s) = true.
Proof.
  intros H. unfold toLowerCase. rewrite all_chars_map.
  rewrite (all_chars_ext _ (fun c => negb (is_ascii_alnum c))); [exact H|].
  intros c. unfold is_sep. now rewrite lower_char_alnum.
Qed.

Lemma lowered_nonempty (s : string) : s <> "" -> toLowerCase s <> "".
Proof. destruct s; [contradiction|discriminate]. Qed.

(** A non-empty run of separators contributes one hyphen, or none right
    after another separator, whatever its length and its characters. *)
Lemma runs_sep_run (b : bool) (s t : string) :
  s <> "" -> all_chars is_sep s = true ->
  runs is_sep "-" b (s ++ t) = (if b then "" else "-") ++ runs is_sep "-" true t.
Proof.
  intros Hne Hall. destruct s as [|c s]; [contradiction|].
  cbn [all_chars] in Hall. apply andb_true_iff in Hall as [Hc Hall].
  simpl. rewrite Hc, (runs_sep_all _ Hall). now destruct b.
Qed.

Lemma runs_sep_inner (b : bool) (a s1 s2 t : string) :
  s1 <> "" -> s2 <> "" -> all_chars is_sep s1 = true -> all_chars is_sep s2 = true ->
  runs is_sep "-" b (a ++ s1 ++ t) = runs is_sep "-" b (a ++ s2 ++ t).
Proof.
  intros H1 H2 Ha1 Ha2. revert b. induction a as [|c a IH]; intros b.
  - simpl. now rewrite !runs_sep_run.
  - simpl. destruct (is_sep c); [destruct b|]; now rewrite IH.
Qed.

Lemma runs_sep_all_stripped (b : bool) (s : string) :
  all_chars is_sep s = true -> strip_end is_hyphen (runs is_sep "-" b s) = "".
Proof.
  intros Hall. revert b. induction s as [|c s IH]; intros b; [reflexivity|].
  cbn [all_chars] in Hall. apply andb_true_iff in Hall as [Hc Hall].
  simpl. rewrite Hc. destruct b; [now apply IH|].
  simpl. now rewrite (IH Hall true).
Qed.

Lemma runs_sep_trailing (b : bool) (t trail : string) :
  all_chars is_sep trail = true ->
  strip_end is_hyphen (runs is_sep "-" b (t ++ trail))
  = strip_end is_hyphen (runs is_sep "-" b t).
Proof.
  intros Hall. revert b. induction t as [|c t IH]; intros b.
  - simpl. now apply runs_sep_all_stripped.
  - change (String c t ++ trail) with (String c (t ++ trail)).
    cbn [replace_runs_from]. destruct (is_sep c); [destruct b|];
      first [apply IH | apply strip_end_cons, IH].
Qed.

(** X14.  Which labels share a slug, among labels whose characters are code
    units below 256 (the strings of this development).  Labels that differ
    only in the case of their letters do.  Characters other than ASCII
    letters and digits before the first or after the last word of a label do
    not count.  Between two words, any non-empty run of such characters
    stands for one separator, whatever it is made of.  Characters from
    U+0100 on are outside this statement, since lower-casing can turn one of
    them into an ASCII letter (U+212A into [k]). *)
Theorem labels_sharing_a_slug :
  (forall a b : string, toLowerCase a = toLowerCase b -> slugify a = slugify b)
  /\ (forall lead label trail : string,
        all_chars (fun c => negb (is_ascii_alnum c)) lead = true ->
        all_chars (fun c => negb (is_ascii_alnum c)) trail = true ->
        slugify (lead ++ label ++ trail) = slugify label)
  /\ (forall a s1 s2 b : string,
        s1 <> "" -> s2 <> "" ->
        all_chars (fun c => negb (is_ascii_alnum c)) s1 = true ->
        all_chars (fun c => negb (is_ascii_alnum c)) s2 = true ->
        slugify (a ++ s1 ++ b) = slugify (a ++ s2 ++ b)).
Proof.
  split; [|split].
  - intros a b H. now rewrite !slugify_canonical, H.
  - intros lead label trail Hl Ht. rewrite !slugify_canonical.
    unfold toLowerCase, canonical_slug. rewrite !map_chars_app.
    rewrite (runs_sep_all _ (lowered_separators _ Hl)).
    apply runs_sep_trailing, (lowered_separators _ Ht).
  - intros a s1 s2 b H1 H2 Ha1 Ha2. rewrite !slugify_canonical.
    unfold toLowerCase, canonical_slug. rewrite !map_chars_app. f_equal.
    apply runs_sep_inner;
      auto using lowered_nonempty, lowered_separators.
Qed.

Lemma labels_sharing_a_slug_witness :
  slugify "MY movie" = slugify "my Movie"
  /\ slugify ("  [" ++ "My Movie" ++ "]!") = slugify "My Movie"
  /\ slugify ("my" ++ " - " ++ "movie") = slugify ("my" ++ "_" ++ "movie").
Proof.
  split; [|split].
  - apply (proj1 labels_sharing_a_slug). reflexivity.
  - apply (proj1 (proj2 labels_sharing_a_slug)); reflexivity.
  - apply (proj2 (proj2 labels_sharing_a_slug)); first [discriminate | reflexivity].
Defined.

(** ** The [Content-Disposition] value *)

(** X15.  The [filename*] parameter determines the stored filename: two
    filenames with the same percent-encoding are the same filename, so
    nothing of the name is lost in the header (the decoder above gives it
    back). *)
Theorem encoded_filename_is_lossless (a b : string) :
  encodeURIComponent a = encodeURIComponent b -> a = b.
Proof.
  intros H.
  pose proof (decodeURIComponent_encodeURIComponent a) as Ha.
  rewrite H, decodeURIComponent_encodeURIComponent in Ha. now injection Ha.
Qed.

Lemma encoded_filename_is_lossless_witness :
  "a b" ++ ".mp4" = "a b.mp4".
Proof. apply (encoded_filename_is_lossless ("a b" ++ ".mp4") "a b.mp4"). reflexivity. Defined.

Lemma fallback_class_is_safe (c : ascii) :
  in_fallback_class c = true ->
  is_printable_ascii c && negb (code c =? 34) && negb (code c =? 92) = true.
Proof.
  destruct c as [[] [] [] [] [] [] [] []]; vm_compute; intros H;
    first [reflexivity | discriminate H].
Qed.

Lemma encoded_char_is_printable (c : ascii) :
  uri_unreserved c || (code c =? 37) = true -> is_printable_ascii c = true.
Proof.
  destruct c as [[] [] [] [] [] [] [] []]; vm_compute; intros H;
    first [reflexivity | discriminate H].
Qed.

Lemma andb_left (a b : bool) : a && b = true -> a = true.
Proof. now destruct a. Qed.

Lemma andb_right_of_three (c : ascii) :
  is_printable_ascii c && negb (code c =? 34) && negb (code c =? 92) = true ->
  negb (code c =? 34) && negb (code c =? 92) = true.
Proof. now destruct (is_printable_ascii c). Qed.

(** X16.  Whatever the stored filename, the [Content-Disposition] value the
    download handler sends is made of printable ASCII only (no control
    character, no line break, nothing above 126), and the quoted fallback
    name contains neither a double quote nor a backslash: a filename cannot
    end the quoted string early or add a header line. *)
Theorem content_disposition_is_well_formed (filename : string) :
  all_chars is_printable_ascii (attachment_disposition filename) = true
  /\ all_chars (fun c => negb (code c =? 34) && negb (code c =? 92))
       (map_chars fallback_char filename) = true.
Proof.
  assert (Hfb : all_chars (fun c => is_printable_ascii c && negb (code c =? 34)
                                    && negb (code c =? 92))
                  (map_chars fallback_char filename) = true)
    by apply (all_chars_impl _ _ _ fallback_class_is_safe (fallback_all_in_class filename)).
  split.
  - unfold attachment_disposition. rewrite !all_chars_app.
    rewrite (all_chars_impl _ _ _ encoded_char_is_printable
               (encodeURIComponent_ascii filename)).
    rewrite (all_chars_impl _ is_printable_ascii _
               (fun c H => andb_left _ _ (andb_left _ _ H)) Hfb).
    reflexivity.
  - apply (all_chars_impl _ _ _ andb_right_of_three Hfb).
Qed.

(** ** The earlier revision's registration *)

Lemma replace_each_delete_in_class (s : string) :
  all_chars in_slug_class (replace_each outside_slug_class "" s) = true.
Proof.
  induction s as [|c s IH]; [reflexivity|].
  cbn [replace_each]. unfold outside_slug_class at 1.
  destruct (in_slug_class c) eqn:E; cbn [negb]; [|exact IH].
  cbn [all_chars]. now rewrite E, IH.
Qed.

Lemma runs_space_slug_chars (b : bool) (s : string) :
  all_chars in_slug_class s = true ->
  all_chars (fun c => is_slug_alnum c || is_hyphen c) (runs is_space "-" b s) = true.
Proof.
  revert b. induction s as [|c s IH]; intros b H; [reflexivity|].
  cbn [all_chars] in H. apply andb_true_iff in H as [Hc H].
  unfold in_slug_class in Hc.
  char_class c; cbn [replace_runs_from]; rewrite Hspace;
    rewrite ?Halnum, ?Hspace, ?Hhyphen in Hc; try discriminate.
  - cbn [all_chars]. now rewrite Halnum, IH.
  - destruct b; [now apply IH|]. simpl. now apply IH.
  - cbn [all_chars]. now rewrite Hhyphen, orb_true_r, IH.
Qed.

Lemma filter_replace_each_delete (s : string) :
  filter_chars is_slug_alnum (replace_each outside_slug_class "" s)
  = filter_chars is_slug_alnum s.
Proof.
  induction s as [|c s IH]; [reflexivity|].
  cbn [replace_each filter_chars]. char_class c; rewrite Houtside, Halnum;
    cbn [filter_chars append]; rewrite ?Halnum; now rewrite IH.
Qed.

Lemma filter_runs_space (b : bool) (s : string) :
  filter_chars is_slug_alnum (runs is_space "-" b s) = filter_chars is_slug_alnum s.
Proof.
  revert b. induction s as [|c s IH]; intros b; [reflexivity|].
  char_class c; cbn [replace_runs_from filter_chars]; rewrite Hspace, Halnum.
  - cbn [filter_chars]. now rewrite Halnum, IH.
  - destruct b; simpl; apply IH.
  - cbn [filter_chars]. now rewrite Halnum, IH.
  - cbn [filter_chars]. now rewrite Halnum, IH.
Qed.

Lemma filter_drop_while_space (s : string) :
  filter_chars is_slug_alnum (drop_while is_space s) = filter_chars is_slug_alnum s.
Proof.
  induction s as [|c s IH]; [reflexivity|].
  cbn [drop_while]. char_class c; rewrite Hspace; [reflexivity| |reflexivity|reflexivity].
  cbn [filter_chars]. now rewrite Halnum.
Qed.

Lemma filter_strip_end_space (s : string) :
  filter_chars is_slug_alnum (strip_end is_space s) = filter_chars is_slug_alnum s.
Proof.
  induction s as [|c s IH]; [reflexivity|].
  cbn [strip_end]. destruct (is_space c && is_empty (strip_end is_space s)) eqn:E.
  - apply andb_true_iff in E as [Hc He].
    destruct (strip_end is_space s); [|discriminate].
    cbn [filter_chars] in *. rewrite <- IH.
    char_class c; try congruence. now rewrite Halnum.
  - cbn [filter_chars]. now rewrite IH.
Qed.

(** X17.  For a label whose characters are code units below 256 (the
    strings of this development), the slug of the earlier revision is made
    of lowercase ASCII letters, digits and hyphens only, and its letters and
    digits are those of the label, lower-cased and in order.  (Unlike the
    later revision it may start or end with a hyphen and repeat hyphens, see
    [earlier_revision_keeps_hyphen_runs].)  Characters from U+0100 on are
    outside this statement: lower-casing sends U+212A to [k]. *)
Theorem earlier_slug_characters (label : string) :
  all_chars (fun c => is_slug_alnum c || is_hyphen c) (EarlierRevision.slug_of label) = true
  /\ filter_chars is_slug_alnum (EarlierRevision.slug_of label)
     = toLowerCase (filter_chars is_ascii_alnum label).
Proof.
  unfold EarlierRevision.slug_of, replace_runs. split.
  - apply runs_space_slug_chars, replace_each_delete_in_class.
  - rewrite filter_runs_space, filter_replace_each_delete, toLowerCase_trim.
    unfold trim. rewrite filter_strip_end_space, filter_drop_while_space.
    unfold toLowerCase. induction label as [|c s IH]; [reflexivity|].
    cbn [map_chars filter_chars]. rewrite lower_char_alnum.
    destruct (is_ascii_alnum c); cbn [map_chars]; now rewrite IH.
Qed.

(** X18.  Registration in the earlier revision: the filename is a required
    field, so a request without a non-empty filename is answered 400 before
    any store access; a valid request for a free slug stores the URL, key
    and filename exactly as submitted (the filename is not trimmed) with the
    lookup and the write as its only effects; a taken slug is answered 409
    and the store is unchanged. *)
Theorem earlier_registration_requires_a_filename
    (net : FetchRequest -> FetchOutcome) (st : Store) (req : Request)
    (custom_id : string) :
  req_form req !! "custom_id" = Some custom_id ->
  (truthy (req_form req !! "filename") = false ->
   run net (EarlierRevision.generateLinkHandler req) st =
     {| outcome := Returned invalid_input_response; store_after := st; trace := [] |})
  /\ (forall url key filename : string,
        req_form req !! "url" = Some url -> url <> "" ->
        req_form req !! "key" = Some key -> key <> "" ->
        req_form req !! "filename" = Some filename -> filename <> "" ->
        EarlierRevision.slug_of custom_id <> "" ->
        let slug := EarlierRevision.slug_of custom_id in
        let stored := {| link_url := url; link_key := key; link_filename := filename |} in
        (st !! slug = None ->
         run net (EarlierRevision.generateLinkHandler req) st =
           {| outcome := Returned (generated_response slug filename key (req_origin req));
              store_after := <[slug := stored]> st;
              trace := [EvKvGet slug; EvKvSet slug stored] |})
        /\ (forall r, st !! slug = Some r ->
            run net (EarlierRevision.generateLinkHandler req) st =
              {| outcome := Returned (slug_taken_response slug);
                 store_after := st; trace := [EvKvGet slug] |})).
Proof.
  intros Hc. split.
  - intros Hf. unfold EarlierRevision.generateLinkHandler. rewrite Hc, Hf.
    cbn [negb]. rewrite orb_true_r. reflexivity.
  - intros url key filename Hu Hune Hk Hkne Hf Hfne Hsne. cbv zeta.
    unfold EarlierRevision.generateLinkHandler. rewrite Hc, Hu, Hk, Hf.
    rewrite (truthy_Some_nonempty _ Hune), (truthy_Some_nonempty _ Hkne),
      (truthy_Some_nonempty _ Hfne), (is_empty_false _ Hsne).
    cbn [negb orb run]. split.
    + intros ->. reflexivity.
    + intros r ->. reflexivity.
Qed.

Lemma earlier_registration_requires_a_filename_witness :
  run (always demo_full) (EarlierRevision.generateLinkHandler earlier_registration) ∅ =
    {| outcome := Returned (generated_response "my-movie-2023" " clip.mp4" "s3cret"
                              "https://links.example");
       store_after := {[ "my-movie-2023" := earlier_record ]};
       trace := [EvKvGet "my-movie-2023"; EvKvSet "my-movie-2023" earlier_record] |}.
Proof.
  apply (proj1 (proj2 (earlier_registration_requires_a_filename (always demo_full) ∅
                         earlier_registration "My Movie! 2023" eq_refl)
                  "https://ex.com/a.bin" "s3cret" " clip.mp4"
                  eq_refl ltac:(discriminate) eq_refl ltac:(discriminate)
                  eq_refl ltac:(discriminate) ltac:(discriminate))).
  reflexivity.
Defined.
